(** * cli_calculator.py: the restricted evaluator and its line entry point

    A shallow embedding of [SafeEvaluator], [eval_line] and one iteration of
    [repl].  Python objects are a small tagged union, the variable
    environment is a finite map from names to values, and a raised exception
    is an explicit result that still carries the environment, because a
    Python dict mutated before a raise stays mutated.

    Two things the program calls are not part of it and are taken as
    parameters: [ast.parse] (the CPython parser) and the arithmetic of the
    interpreter outside the integers (floats, [math.*]). *)

From Stdlib Require Import ZArith Floats Ascii String.
From stdpp Require Import base strings pretty list sorting gmap fin_maps.

Set Warnings "-register-all".
Local Open Scope Z_scope.
Local Open Scope string_scope.

(** ** Python values and exceptions *)

(** The function objects stored in [FUNCS].  [lambda_log] is the lambda
    written in the source, the others are builtins. *)
Inductive pyfunc :=
| math_sqrt | math_sin | math_cos | math_tan | lambda_log
| math_log | math_exp | builtin_abs | builtin_round.

Inductive value :=
| VInt (z : Z)
| VBool (b : bool)
| VFloat (f : float)
| VComplex (re im : float)
| VFunc (f : pyfunc)
| VNone
| VTuple (name : string) (v : value).

(** Exceptions by class, each with its message.  A subclass instance is
    filed under the class the handlers of the program name. *)
Inductive exn :=
| ValueError (msg : string)
| NameError (msg : string)
| ZeroDivisionError (msg : string)
| SyntaxError (msg : string)
| TypeError (msg : string)
| OverflowError (msg : string)
| OtherError (cls msg : string).

Inductive res (A : Type) :=
| OK (a : A)
| Raise (e : exn).
Arguments OK {A} a.
Arguments Raise {A} e.

(** ** The syntax tree of the [ast] module *)

Inductive operator :=
| Add | Sub | Mult | MatMult | Div | Mod | Pow
| LShift | RShift | BitOr | BitXor | BitAnd | FloorDiv.

Inductive unaryop := Invert | Not | UAdd | USub.

(** The payload of an [ast.Constant]. *)
Inductive constant :=
| CInt (z : Z)
| CBool (b : bool)
| CFloat (f : float)
| CComplex (im : float)
| CStr (s : string)
| CBytes (s : string)
| CNone
| CEllipsis.

(** One constructor per node class that [SafeEvaluator] has a [visit_*]
    method for; every other class is [Other cls children], with the
    children that [ast.iter_fields] yields, in field order.  The trees are
    untyped, as at run time. *)
Inductive node :=
| Expression (body : node)
| Module (body : list node)
| Expr (value : node)
| Assign (targets : list node) (value : node)
| Name (id : string)
| Call (func : node) (args : list node) (keywords : list keyword)
| BinOp (left : node) (op : operator) (right : node)
| UnaryOp (op : unaryop) (operand : node)
| IfExp (test body orelse : node)
| Compare (left : node) (comparators : list node)
| BoolOp (values : list node)
| Lambda (body : node)
| Attribute (value : node) (attr : string)
| Subscript (value slice : node)
| List_ (elts : list node)
| Tuple (elts : list node)
| Dict (keys values : list node)
| Constant (value : constant)
| Num (n : value)
| Other (cls : string) (children : list node)
with keyword :=
| Keyword (arg : option string) (value : node).

(** ** Environment and the evaluation monad *)

Abbreviation Env := (gmap string value).

(** A computation reads and writes the environment and either returns or
    raises; the environment is returned in both cases. *)
Definition M (A : Type) : Type := Env → res A * Env.

Definition ret {A} (a : A) : M A := λ env, (OK a, env).
Definition raise {A} (e : exn) : M A := λ env, (Raise e, env).
Definition bind {A B} (m : M A) (k : A → M B) : M B :=
  λ env, match m env with
         | (OK a, env') => k a env'
         | (Raise e, env') => (Raise e, env')
         end.
Definition lift {A} (r : res A) : M A := λ env, (r, env).
Definition env_get (k : string) : M (option value) := λ env, (OK (env !! k), env).
Definition env_set (k : string) (v : value) : M unit := λ env, (OK tt, <[k:=v]> env).

Notation "'let!' x ':=' m 'in' k" := (bind m (λ x, k))
  (at level 10, x name, m at level 200, k at level 200, only parsing).

(** ** Capability tables *)

Definition FUNCS : list (string * pyfunc) :=
  [ ("sqrt", math_sqrt); ("sin", math_sin); ("cos", math_cos); ("tan", math_tan);
    ("log", lambda_log); ("ln", math_log); ("exp", math_exp);
    ("abs", builtin_abs); ("round", builtin_round) ].

(** [math.pi] and [math.e], the doubles nearest to the two reals. *)
Definition CONSTS : list (string * value) :=
  [ ("pi", VFloat 0x1.921fb54442d18p+1%float);
    ("e", VFloat 0x1.5bf0a8b145769p+1%float) ].

Fixpoint assoc {A} (k : string) (l : list (string * A)) : option A :=
  match l with
  | [] => None
  | (k', a) :: l' => if String.eqb k k' then Some a else assoc k l'
  end.

(** [func not in FUNCS.values()]: membership by equality of objects; a
    number, [None] or a tuple never equals a function object. *)
Definition in_FUNCS_values (v : value) : option pyfunc :=
  match v with
  | VFunc f => Some f
  | _ => None
  end.

Definition class_name_operator (op : operator) : string :=
  match op with
  | Add => "Add" | Sub => "Sub" | Mult => "Mult" | MatMult => "MatMult"
  | Div => "Div" | Mod => "Mod" | Pow => "Pow" | LShift => "LShift"
  | RShift => "RShift" | BitOr => "BitOr" | BitXor => "BitXor"
  | BitAnd => "BitAnd" | FloorDiv => "FloorDiv"
  end.

Definition class_name_unaryop (op : unaryop) : string :=
  match op with
  | Invert => "Invert" | Not => "Not" | UAdd => "UAdd" | USub => "USub"
  end.

Definition type_name (v : value) : string :=
  match v with
  | VInt _ => "int"
  | VBool _ => "bool"
  | VFloat _ => "float"
  | VComplex _ _ => "complex"
  | VFunc lambda_log => "function"
  | VFunc _ => "builtin_function_or_method"
  | VNone => "NoneType"
  | VTuple _ _ => "tuple"
  end.

(** [bool] is a subclass of [int]: both enter integer arithmetic. *)
Definition as_int (v : value) : option Z :=
  match v with
  | VInt z => Some z
  | VBool b => Some (if b then 1 else 0)
  | _ => None
  end.

(** [right == 0]. *)
Definition py_eq_zero (v : value) : bool :=
  match v with
  | VInt z => Z.eqb z 0
  | VBool b => negb b
  | VFloat f => PrimFloat.eqb f 0%float
  | VComplex re im => PrimFloat.eqb re 0%float && PrimFloat.eqb im 0%float
  | VFunc _ | VNone | VTuple _ _ => false
  end.

(** ** Keyword dictionaries

    [{kw.arg: self.visit(kw.value) for kw in node.keywords}] builds a dict:
    a key seen again keeps its place and takes the new value.  [kw.arg] is
    [None] for an unpacked mapping argument. *)
Abbreviation kwdict := (list (option string * value)).

Fixpoint dict_set (k : option string) (v : value) (d : kwdict) : kwdict :=
  match d with
  | [] => [(k, v)]
  | (k', v') :: d' =>
      if decide (k = k') then (k, v) :: d' else (k', v') :: dict_set k v d'
  end.

(** A call that unpacks a dict as keyword arguments refuses a key that is
    not a string before the callee sees anything. *)
Fixpoint string_keys (d : kwdict) : option (list (string * value)) :=
  match d with
  | [] => Some []
  | (Some k, v) :: d' => option_map (cons (k, v)) (string_keys d')
  | (None, _) :: _ => None
  end.

(** ** String methods used by [eval_line] and [repl] *)

(** [str.isspace] on the characters below 128. *)
Definition is_space (c : ascii) : bool :=
  let n := nat_of_ascii c in
  (Nat.leb 9 n && Nat.leb n 13) || (Nat.leb 28 n && Nat.leb n 32).

Fixpoint lstrip (s : string) : string :=
  match s with
  | String c s' => if is_space c then lstrip s' else s
  | EmptyString => s
  end.

Fixpoint rstrip (s : string) : string :=
  match s with
  | EmptyString => EmptyString
  | String c s' =>
      match rstrip s' with
      | EmptyString => if is_space c then EmptyString else String c EmptyString
      | t => String c t
      end
  end.

Definition strip (s : string) : string := rstrip (lstrip s).

(** ["=" in s] *)
Fixpoint contains_eq (s : string) : bool :=
  match s with
  | EmptyString => false
  | String c s' => Ascii.eqb c "="%char || contains_eq s'
  end.

Definition startswith (s : string) (prefixes : list string) : bool :=
  existsb (λ p, String.prefix p s) prefixes.

Definition lower_char (c : ascii) : ascii :=
  let n := nat_of_ascii c in
  if Nat.leb 65 n && Nat.leb n 90 then ascii_of_nat (n + 32) else c.

Fixpoint lower (s : string) : string :=
  match s with
  | EmptyString => EmptyString
  | String c s' => String (lower_char c) (lower s')
  end.

Definition mem_string (s : string) (l : list string) : bool :=
  existsb (String.eqb s) l.

(** [float(val)]: an integer is rounded to the nearest double and refused
    when out of range. *)
Definition float_of_Z (z : Z) : float :=
  SF2Prim (binary_normalize prec emax z 0 false).

Definition py_float (v : value) : res float :=
  match v with
  | VInt z =>
      let f := float_of_Z z in
      if is_infinity f then Raise (OverflowError "int too large to convert to float")
      else OK f
  | VBool b => OK (if b then 1%float else 0%float)
  | VFloat f => OK f
  | _ => Raise (TypeError ("float() argument must be a string or a real number, not '"
                           ++ type_name v ++ "'"))
  end.

Inductive mode := mode_exec | mode_eval.

Section Evaluator.

(** The interpreter's arithmetic on operands that are not both integers,
    and the numeric functions of the run-time library applied to an
    argument list of the right length.  Neither is code of the program. *)
Variable arith : operator → value → value → res value.
Variable math : pyfunc → list value → res value.

(** *** [operator.*] *)

Definition int_op (op : operator) (f : Z → Z → res value) (a b : value) : res value :=
  match as_int a, as_int b with
  | Some x, Some y => f x y
  | _, _ => arith op a b
  end.

Definition operator_add := int_op Add (λ x y, OK (VInt (x + y))).
Definition operator_sub := int_op Sub (λ x y, OK (VInt (x - y))).
Definition operator_mul := int_op Mult (λ x y, OK (VInt (x * y))).
(** [int / int] is a float, correctly rounded: left to [arith]. *)
Definition operator_truediv (a b : value) : res value := arith Div a b.
Definition operator_floordiv :=
  int_op FloorDiv (λ x y,
    if Z.eqb y 0 then Raise (ZeroDivisionError "integer division or modulo by zero")
    else OK (VInt (x / y))).
Definition operator_mod :=
  int_op Mod (λ x y,
    if Z.eqb y 0 then Raise (ZeroDivisionError "integer modulo by zero")
    else OK (VInt (x mod y))).
(** A negative exponent leaves the integers. *)
Definition operator_pow (a b : value) : res value :=
  match as_int a, as_int b with
  | Some x, Some y => if Z.leb 0 y then OK (VInt (x ^ y)) else arith Pow a b
  | _, _ => arith Pow a b
  end.

Definition bad_unary (sym : string) (v : value) : res value :=
  Raise (TypeError ("bad operand type for unary " ++ sym ++ ": '" ++ type_name v ++ "'")).

Definition operator_pos (v : value) : res value :=
  match v with
  | VInt z => OK (VInt z)
  | VBool b => OK (VInt (if b then 1 else 0))
  | VFloat f => OK (VFloat f)
  | VComplex re im => OK (VComplex re im)
  | _ => bad_unary "+" v
  end.

Definition operator_neg (v : value) : res value :=
  match v with
  | VInt z => OK (VInt (- z))
  | VBool b => OK (VInt (if b then -1 else 0))
  | VFloat f => OK (VFloat (- f)%float)
  | VComplex re im => OK (VComplex (- re)%float (- im)%float)
  | _ => bad_unary "-" v
  end.

Definition BIN_OPS (op : operator) : option (value → value → res value) :=
  match op with
  | Add => Some operator_add
  | Sub => Some operator_sub
  | Mult => Some operator_mul
  | Div => Some operator_truediv
  | FloorDiv => Some operator_floordiv
  | Mod => Some operator_mod
  | Pow => Some operator_pow
  | _ => None
  end.

Definition UNARY_OPS (op : unaryop) : option (value → res value) :=
  match op with
  | UAdd => Some operator_pos
  | USub => Some operator_neg
  | _ => None
  end.

(** [op_type in (ast.Div, ast.FloorDiv, ast.Mod)] *)
Definition guarded (op : operator) : bool :=
  match op with
  | Div | FloorDiv | Mod => true
  | _ => false
  end.

(** *** Calling a registered function *)

Definition given (n : nat) : string := pretty n ++ " given)".

(** [math.sqrt], [math.sin], ... and [abs]: one positional argument, no
    keywords. *)
Definition call_one (name : string) (body : value → res value)
    (args : list value) (kw : list (string * value)) : res value :=
  match kw with
  | _ :: _ => Raise (TypeError (name ++ "() takes no keyword arguments"))
  | [] =>
      match args with
      | [x] => body x
      | _ => Raise (TypeError (name ++ "() takes exactly one argument (" ++ given (length args)))
      end
  end.

(** Two parameters that may be passed by position or by name: the
    positional arguments fill the slots from the left, then each keyword
    fills the slot of its name. *)
Inductive slots :=
| Slots (p1 p2 : option value)
| Multiple (pos : nat) (name : string)
| Unexpected (name : string).

Fixpoint fill (n1 n2 : string) (kw : list (string * value)) (s : slots) : slots :=
  match kw, s with
  | (k, v) :: kw', Slots a b =>
      if String.eqb k n1 then
        match a with
        | None => fill n1 n2 kw' (Slots (Some v) b)
        | Some _ => Multiple 1 n1
        end
      else if String.eqb k n2 then
        match b with
        | None => fill n1 n2 kw' (Slots a (Some v))
        | Some _ => Multiple 2 n2
        end
      else Unexpected k
  | _, _ => s
  end.

Definition positional (args : list value) : slots :=
  match args with
  | [] => Slots None None
  | [a] => Slots (Some a) None
  | a :: b :: _ => Slots (Some a) (Some b)
  end.

(** [lambda x, base=10: math.log(x, base)] *)
Definition call_lambda_log (args : list value) (kw : list (string * value)) : res value :=
  match fill "x" "base" kw (positional args) with
  | Multiple _ n =>
      Raise (TypeError ("<lambda>() got multiple values for argument '" ++ n ++ "'"))
  | Unexpected k =>
      Raise (TypeError ("<lambda>() got an unexpected keyword argument '" ++ k ++ "'"))
  | Slots x base =>
      if Nat.ltb 2 (length args) then
        Raise (TypeError ("<lambda>() takes from 1 to 2 positional arguments but "
                          ++ pretty (length args) ++ " were given"))
      else
        match x with
        | None => Raise (TypeError "<lambda>() missing 1 required positional argument: 'x'")
        | Some x => math math_log [x; default (VInt 10) base]
        end
  end.

(** [math.log(x[, base])] *)
Definition call_math_log (args : list value) (kw : list (string * value)) : res value :=
  match kw with
  | _ :: _ => Raise (TypeError "log() takes no keyword arguments")
  | [] =>
      match args with
      | [x] => math math_log [x]
      | [x; base] => math math_log [x; base]
      | _ => Raise (TypeError "math.log requires 1 to 2 arguments")
      end
  end.

(** [abs(x)] *)
Definition abs_body (x : value) : res value :=
  match x with
  | VInt z => OK (VInt (Z.abs z))
  | VBool b => OK (VInt (if b then 1 else 0))
  | VFloat f => OK (VFloat (PrimFloat.abs f))
  | VComplex _ _ => math builtin_abs [x]
  | _ => Raise (TypeError ("bad operand type for abs(): '" ++ type_name x ++ "'"))
  end.

(** [round(number, ndigits=None)]: an integer rounded to no digits is
    itself; every other case is the library's. *)
Definition call_round (args : list value) (kw : list (string * value)) : res value :=
  if Nat.ltb 2 (length args + length kw) then
    Raise (TypeError ("round() takes at most 2 arguments ("
                      ++ given (length args + length kw)))
  else
    match fill "number" "ndigits" kw (positional args) with
    | Multiple i n =>
        Raise (TypeError ("argument for round() given by name ('" ++ n
                          ++ "') and position (" ++ pretty i ++ ")"))
    | Unexpected k =>
        Raise (TypeError ("'" ++ k ++ "' is an invalid keyword argument for round()"))
    | Slots None _ =>
        Raise (TypeError "round() missing required argument 'number' (pos 1)")
    | Slots (Some number) ndigits =>
        match as_int number, default VNone ndigits with
        | Some z, VNone => OK (VInt z)
        | _, nd => math builtin_round [number; nd]
        end
    end.

Definition call_function (f : pyfunc) (args : list value) (kwargs : kwdict) : res value :=
  match string_keys kwargs with
  | None => Raise (TypeError "keywords must be strings")
  | Some kw =>
      match f with
      | math_sqrt => call_one "math.sqrt" (λ x, math math_sqrt [x]) args kw
      | math_sin => call_one "math.sin" (λ x, math math_sin [x]) args kw
      | math_cos => call_one "math.cos" (λ x, math math_cos [x]) args kw
      | math_tan => call_one "math.tan" (λ x, math math_tan [x]) args kw
      | math_exp => call_one "math.exp" (λ x, math math_exp [x]) args kw
      | builtin_abs => call_one "abs" abs_body args kw
      | lambda_log => call_lambda_log args kw
      | math_log => call_math_log args kw
      | builtin_round => call_round args kw
      end
  end.

(** *** [SafeEvaluator] *)

Definition visit_Name (id : string) : M value :=
  λ env,
    match env !! id with
    | Some v => (OK v, env)
    | None =>
        match assoc id CONSTS with
        | Some c => (OK c, env)
        | None =>
            match assoc id FUNCS with
            | Some f => (OK (VFunc f), env)
            | None => (Raise (NameError ("Unknown name: " ++ id)), env)
            end
        end
    end.

(** [isinstance(node.value, (int, float))]; [bool] is a subclass of
    [int]. *)
Definition visit_Constant (c : constant) : M value :=
  match c with
  | CInt z => ret (VInt z)
  | CBool b => ret (VBool b)
  | CFloat f => ret (VFloat f)
  | _ => raise (ValueError "Only numeric literals are allowed")
  end.

Definition apply_BinOp (op : operator) (left right : value) : M value :=
  match BIN_OPS op with
  | None => raise (ValueError ("Operator not allowed: " ++ class_name_operator op))
  | Some f =>
      if guarded op && py_eq_zero right
      then raise (ZeroDivisionError "Division by zero")
      else lift (f left right)
  end.

Definition apply_UnaryOp (op : unaryop) (operand : value) : M value :=
  match UNARY_OPS op with
  | None => raise (ValueError ("Unary operator not allowed: " ++ class_name_unaryop op))
  | Some f => lift (f operand)
  end.

(** [NodeVisitor.visit] dispatches on the class of the node to the
    [visit_*] method of that name and to [generic_visit] when there is
    none; [generic_visit] visits the children, drops what they return and
    returns [None]. *)
Fixpoint visit (n : node) : M value :=
  match n with
  | Expression body => visit body
  | Module body =>
      match body with
      | [stmt] => visit stmt
      | _ => raise (ValueError "Only single expressions/assignments allowed")
      end
  | Expr value => visit value
  | Assign targets value =>
      match targets with
      | [target] =>
          match target with
          | Name id =>
              let! v := visit value in
              let! _ := env_set id v in
              ret (VTuple id v)
          | _ => raise (ValueError "Left side must be a variable name")
          end
      | _ => raise (ValueError "Only simple assignments supported (e.g., x = 3)")
      end
  | Name id => visit_Name id
  | Call func args keywords =>
      let! f := visit func in
      match in_FUNCS_values f with
      | None => raise (ValueError "Only approved functions are allowed")
      | Some f =>
          let! vs := (fix visit_args (l : list node) : M (list value) :=
                   match l with
                   | [] => ret []
                   | a :: l' =>
                       let! v := visit a in
                       let! vs := visit_args l' in
                       ret (v :: vs)
                   end) args in
          let! kwargs := (fix visit_keywords (l : list keyword) (d : kwdict) : M kwdict :=
                       match l with
                       | [] => ret d
                       | Keyword arg value :: l' =>
                           let! v := visit value in
                           visit_keywords l' (dict_set arg v d)
                       end) keywords [] in
          lift (call_function f vs kwargs)
      end
  | BinOp lhs op rhs =>
      let! l := visit lhs in
      let! r := visit rhs in
      apply_BinOp op l r
  | UnaryOp op operand =>
      let! v := visit operand in
      apply_UnaryOp op v
  | IfExp _ _ _ => raise (ValueError "Conditional expressions are not allowed")
  | Compare _ _ => raise (ValueError "Comparisons are not allowed")
  | BoolOp _ => raise (ValueError "Boolean operators are not allowed")
  | Lambda _ => raise (ValueError "Lambdas are not allowed")
  | Attribute _ _ => raise (ValueError "Attributes are not allowed")
  | Subscript _ _ => raise (ValueError "Indexing/slicing is not allowed")
  | List_ _ => raise (ValueError "Lists are not allowed")
  | Tuple _ => raise (ValueError "Tuples are not allowed")
  | Dict _ _ => raise (ValueError "Dicts are not allowed")
  | Constant value => visit_Constant value
  | Num n => ret n
  | Other _ children =>
      (fix generic_visit (l : list node) : M value :=
         match l with
         | [] => ret VNone
         | c :: l' => let! _ := visit c in generic_visit l'
         end) children
  end.

(** *** [eval_line] *)

(** [ast.parse(s, mode=...)]: the tree, or the exception it raises. *)
Variable ast_parse : string → mode → res node.

Definition except_SyntaxError (m : M value) : M value :=
  λ env,
    match m env with
    | (Raise (SyntaxError msg), env') => (Raise (ValueError ("Syntax error: " ++ msg)), env')
    | r => r
    end.

Definition looks_like_assignment (s : string) : bool :=
  contains_eq s && negb (startswith s ["=="; "!="]).

Definition eval_line (s : string) : M value :=
  let s := strip s in
  except_SyntaxError
    (if looks_like_assignment s then
       let! tree := lift (ast_parse s mode_exec) in
       visit tree
     else
       let! tree := lift (ast_parse s mode_eval) in
       visit tree).

(** *** One iteration of [repl] *)

(** What an iteration prints: fixed text, a value, a binding
    [name = value], or [Error: msg]. *)
Inductive output :=
| Out_text (s : string)
| Out_value (v : value)
| Out_binding (name : string) (v : value)
| Out_error (msg : string).

(** The loop goes on with the environment, returns, or is left by an
    exception that no [except] clause names. *)
Inductive step :=
| Continue (out : list output) (env : Env)
| Return (out : list output)
| Uncaught (e : exn) (env : Env).

Definition nl : string := String (ascii_of_nat 10) EmptyString.

Definition help_text : string :=
  "Commands: :help  :vars  :clear  :quit" ++ nl ++
  "Features: numbers, + - * / // % **, parentheses, variables, functions" ++ nl ++
  "Functions: sqrt, sin, cos, tan, log(x, base=10), ln, exp, abs, round" ++ nl ++
  "Constants: pi, e | Last result: ans" ++ nl ++
  "Examples:" ++ nl ++
  "  2 + 3*4" ++ nl ++
  "  x = 5" ++ nl ++
  "  sqrt(x**2 + 11)" ++ nl ++
  "  log(1000, base=10)" ++ nl ++
  "  ans / 2" ++ nl.

Definition sorted_keys (env : Env) : list string :=
  merge_sort (λ a b, Is_true (String.leb a b))
    (filter (λ k, k ≠ "ans") (map_to_list env).*1).

Definition initial_env : Env := {[ "ans" := VFloat 0%float ]}.

Definition command (cmd : string) (env : Env) : step :=
  if mem_string cmd [":quit"; ":q"; ":exit"] then Return [Out_text "Goodbye!"]
  else if mem_string cmd [":help"; ":h"] then Continue [Out_text help_text] env
  else if mem_string cmd [":vars"; ":v"] then
    let keys := sorted_keys env in
    let shown :=
      match keys with
      | [] => [Out_text "(no variables set)"]
      | _ => omap (λ k, Out_binding k <$> env !! k) keys
      end in
    match env !! "ans" with
    | Some a => Continue (shown ++ [Out_binding "ans" a]) env
    | None => Uncaught (OtherError "KeyError" "'ans'") env
    end
  else if mem_string cmd [":clear"; ":c"] then
    Continue [Out_text "Cleared variables. ans = 0.0"] initial_env
  else Continue [Out_text "Unknown command. Try :help"] env.

(** The [except] clauses of the loop body. *)
Definition handled (e : exn) : option string :=
  match e with
  | ZeroDivisionError msg | NameError msg | ValueError msg => Some msg
  | _ => None
  end.

Definition recover (e : exn) (env : Env) : step :=
  match handled e with
  | Some msg => Continue [Out_error msg] env
  | None => Uncaught e env
  end.

(** What the loop body does with the outcome of [eval_line]: store the
    result in [ans] as a float and print it, or handle the exception. *)
Definition report (r : res value * Env) : step :=
  match r with
  | (Raise e, env') => recover e env'
  | (OK (VTuple var val), env') =>
      match py_float val with
      | Raise e => recover e env'
      | OK f => Continue [Out_binding var val] (<["ans" := VFloat f]> env')
      end
  | (OK result, env') =>
      match py_float result with
      | Raise e => recover e env'
      | OK f => Continue [Out_value result] (<["ans" := VFloat f]> env')
      end
  end.

Definition repl_step (input : string) (env : Env) : step :=
  let line := strip input in
  if String.eqb line "" then Continue [] env
  else if startswith line [":"] then command (strip (lower line)) env
  else report (eval_line line env).
End Evaluator.

(** ** Named forms of the loops inside [visit] *)

Section Loops.
Variable arith : operator → value → value → res value.
Variable math : pyfunc → list value → res value.

(** [[self.visit(a) for a in node.args]] *)
Fixpoint visit_args (l : list node) : M (list value) :=
  match l with
  | [] => ret []
  | a :: l' =>
      let! v := visit arith math a in
      let! vs := visit_args l' in
      ret (v :: vs)
  end.

(** [{kw.arg: self.visit(kw.value) for kw in node.keywords}] *)
Fixpoint visit_keywords (l : list keyword) (d : kwdict) : M kwdict :=
  match l with
  | [] => ret d
  | Keyword arg value :: l' =>
      let! v := visit arith math value in
      visit_keywords l' (dict_set arg v d)
  end.

(** [NodeVisitor.generic_visit] *)
Fixpoint generic_visit (l : list node) : M value :=
  match l with
  | [] => ret VNone
  | c :: l' => let! _ := visit arith math c in generic_visit l'
  end.
End Loops.

(** ** The six supported kinds and the constructs with a rejecting method *)

(** The message of the [visit_*] method that does nothing but raise. *)
Definition rejected (n : node) : option string :=
  match n with
  | IfExp _ _ _ => Some "Conditional expressions are not allowed"
  | Compare _ _ => Some "Comparisons are not allowed"
  | BoolOp _ => Some "Boolean operators are not allowed"
  | Lambda _ => Some "Lambdas are not allowed"
  | Attribute _ _ => Some "Attributes are not allowed"
  | Subscript _ _ => Some "Indexing/slicing is not allowed"
  | List_ _ => Some "Lists are not allowed"
  | Tuple _ => Some "Tuples are not allowed"
  | Dict _ _ => Some "Dicts are not allowed"
  | _ => None
  end.

Definition keyword_value (k : keyword) : node :=
  match k with Keyword _ v => v end.

(** A rejected construct occurs somewhere in the tree. *)
Fixpoint has_rejected (n : node) : bool :=
  match n with
  | Expression body => has_rejected body
  | Module body => existsb has_rejected body
  | Expr value => has_rejected value
  | Assign targets value => existsb has_rejected targets || has_rejected value
  | Call func args keywords =>
      has_rejected func || existsb has_rejected args
      || existsb (λ k, match k with Keyword _ v => has_rejected v end) keywords
  | BinOp lhs _ rhs => has_rejected lhs || has_rejected rhs
  | UnaryOp _ operand => has_rejected operand
  | Other _ children => existsb has_rejected children
  | Name _ | Constant _ | Num _ => false
  | IfExp _ _ _ | Compare _ _ | BoolOp _ | Lambda _ | Attribute _ _
  | Subscript _ _ | List_ _ | Tuple _ | Dict _ _ => true
  end.

(** An assignment statement occurs somewhere in the tree. *)
Fixpoint has_Assign (n : node) : bool :=
  match n with
  | Assign _ _ => true
  | Expression body => has_Assign body
  | Module body => existsb has_Assign body
  | Expr value => has_Assign value
  | Call func args keywords =>
      has_Assign func || existsb has_Assign args
      || existsb (λ k, match k with Keyword _ v => has_Assign v end) keywords
  | BinOp lhs _ rhs => has_Assign lhs || has_Assign rhs
  | UnaryOp _ operand => has_Assign operand
  | Other _ children => existsb has_Assign children
  | _ => false
  end.

(** The error kinds of the design note, read off the exception and its
    message. *)
Definition is_UnsupportedConstruct (e : exn) : Prop :=
  ∃ n msg, rejected n = Some msg ∧ e = ValueError msg.

Definition is_SyntaxError (e : exn) : Prop :=
  ∃ msg, e = ValueError ("Syntax error: " ++ msg).

Definition is_error {A} (r : res A) : bool :=
  match r with
  | Raise _ => true
  | OK _ => false
  end.

(** An exception other than [SyntaxError] passes [eval_line] as it is. *)
Definition not_SyntaxError (e : exn) : bool :=
  match e with
  | SyntaxError _ => false
  | _ => true
  end.

(** The direct children of a node, in the order of the fields. *)
Definition children (n : node) : list node :=
  match n with
  | Expression body => [body]
  | Module body => body
  | Expr value => [value]
  | Assign targets value => targets ++ [value]
  | Call func args keywords => func :: args ++ map keyword_value keywords
  | BinOp lhs _ rhs => [lhs; rhs]
  | UnaryOp _ operand => [operand]
  | IfExp test body orelse => [test; body; orelse]
  | Compare lhs comparators => lhs :: comparators
  | BoolOp values => values
  | Lambda body => [body]
  | Attribute value _ => [value]
  | Subscript value slice => [value; slice]
  | List_ elts => elts
  | Tuple elts => elts
  | Dict keys values => keys ++ values
  | Other _ children => children
  | Name _ | Constant _ | Num _ => []
  end.

(** A computation that raises from every environment, and one that leaves
    every environment as it found it. *)
Definition fails {A} (m : M A) : Prop :=
  ∀ env, ∃ e env', m env = (Raise e, env').

Definition preserves {A} (m : M A) : Prop :=
  ∀ env, (m env).2 = env.

(** The registered functions of exactly one positional argument. *)
Definition takes_one_argument (f : pyfunc) : bool :=
  match f with
  | math_sqrt | math_sin | math_cos | math_tan | math_exp | builtin_abs => true
  | lambda_log | math_log | builtin_round => false
  end.

(** The mode [eval_line] hands to the parser. *)
Definition line_mode (s : string) : mode :=
  if looks_like_assignment (strip s) then mode_exec else mode_eval.

(** [abs(tolerance) >= abs(f - target)], on doubles. *)
Definition within (tolerance target f : float) : bool :=
  PrimFloat.leb (PrimFloat.abs (f - target)) tolerance.

(** ** A finite parser and a partial run-time library, to run examples

    [parse_table] answers for the listed lines with the tree that
    [ast.dump(ast.parse(line, mode=...))] prints on CPython 3.11 (context
    nodes and empty [type_ignores] left out), and with an error outside the
    list.  [no_arith] and [sample_math] know nothing but the one value
    [math.log(1000, 10)] observed there. *)

Definition int_lit (z : Z) : node := Constant (CInt z).

Definition parsed_lines : list (string * (mode * node)) :=
  [ ("1 / 0", (mode_eval, Expression (BinOp (int_lit 1) Div (int_lit 0))));
    ("1 // 0", (mode_eval, Expression (BinOp (int_lit 1) FloorDiv (int_lit 0))));
    ("1 % 0", (mode_eval, Expression (BinOp (int_lit 1) Mod (int_lit 0))));
    ("True", (mode_eval, Expression (Constant (CBool true))));
    ("False", (mode_eval, Expression (Constant (CBool false))));
    ("True + 1", (mode_eval, Expression (BinOp (Constant (CBool true)) Add (int_lit 1))));
    ("pi", (mode_eval, Expression (Name "pi")));
    ("pi = 1", (mode_exec, Module [Assign [Name "pi"] (int_lit 1)]));
    ("x = 5", (mode_exec, Module [Assign [Name "x"] (int_lit 5)]));
    ("x = y", (mode_exec, Module [Assign [Name "x"] (Name "y")]));
    ("{1, 2}", (mode_eval, Expression (Other "Set" [int_lit 1; int_lit 2])));
    ("if 1: y = 2; z",
      (mode_exec,
       Module [Other "If" [int_lit 1; Assign [Name "y"] (int_lit 2); Expr (Name "z")]]));
    ("y + (1 < 2)",
      (mode_eval, Expression (BinOp (Name "y") Add (Compare (int_lit 1) [int_lit 2]))));
    ("1 if x else 0", (mode_eval, Expression (IfExp (Name "x") (int_lit 1) (int_lit 0))));
    ("sqrt(1, 2)", (mode_eval, Expression (Call (Name "sqrt") [int_lit 1; int_lit 2] [])));
    ("sqrt(4, x=1)",
      (mode_exec,
       Module [Expr (Call (Name "sqrt") [int_lit 4] [Keyword (Some "x") (int_lit 1)])]));
    ("sqrt = 5", (mode_exec, Module [Assign [Name "sqrt"] (int_lit 5)]));
    ("sqrt(4)", (mode_eval, Expression (Call (Name "sqrt") [int_lit 4] [])));
    ("round(number=7)",
      (mode_exec,
       Module [Expr (Call (Name "round") [] [Keyword (Some "number") (int_lit 7)])]));
    ("log(1000, base=10)",
      (mode_exec,
       Module [Expr (Call (Name "log") [int_lit 1000] [Keyword (Some "base") (int_lit 10)])]));
    ("log(1000)", (mode_eval, Expression (Call (Name "log") [int_lit 1000] []))) ].

Definition mode_eqb (a b : mode) : bool :=
  match a, b with
  | mode_exec, mode_exec | mode_eval, mode_eval => true
  | _, _ => false
  end.

Definition parse_table (s : string) (m : mode) : res node :=
  match assoc s parsed_lines with
  | Some (m', tree) =>
      if mode_eqb m m' then OK tree
      else Raise (OtherError "LookupError" "line listed under the other mode")
  | None => Raise (OtherError "LookupError" "line not listed")
  end.

Definition no_arith (op : operator) (a b : value) : res value :=
  Raise (OtherError "LookupError" "arithmetic outside the integers").

Definition sample_math (f : pyfunc) (args : list value) : res value :=
  match f, args with
  | math_log, [VInt 1000; VInt 10] => OK (VFloat 0x1.7ffffffffffffp+1%float)
  | _, _ => Raise (OtherError "LookupError" "value not listed")
  end.

(** ** The loop of [repl] over the lines it reads

    [inputs] are the strings that the successive calls of [input] return;
    when they are used up [input] raises [EOFError] and the loop says
    goodbye and exits with status 0.  An exception without an [except]
    clause leaves the function.  (A keyboard interrupt is not modelled.) *)

Inductive ending :=
| Returned
| Exited (status : Z)
| Crashed (e : exn).

Definition banner : string :=
  "CLI Calculator — type :help for commands. Ctrl+C or :quit to exit.".

Section Session.
Variable arith : operator → value → value → res value.
Variable math : pyfunc → list value → res value.
Variable ast_parse : string → mode → res node.

Fixpoint repl_loop (inputs : list string) (env : Env) : list output * ending :=
  match inputs with
  | [] => ([Out_text (nl ++ "Goodbye!")], Exited 0)
  | input :: rest =>
      match repl_step arith math ast_parse input env with
      | Continue out env' =>
          let '(out', e) := repl_loop rest env' in ((out ++ out')%list, e)
      | Return out => (out, Returned)
      | Uncaught e _ => ([], Crashed e)
      end
  end.

Definition repl (inputs : list string) : list output * ending :=
  let '(out, e) := repl_loop inputs initial_env in (Out_text banner :: out, e).

(** The environment the loop holds once it has read [inputs], when it is
    still running then. *)
Fixpoint env_after (inputs : list string) (env : Env) : option Env :=
  match inputs with
  | [] => Some env
  | input :: rest =>
      match repl_step arith math ast_parse input env with
      | Continue _ env' => env_after rest env'
      | _ => None
      end
  end.
End Session.

(** A computation that removes no key from the environment. *)
Definition keeps_keys {A} (m : M A) : Prop :=
  ∀ env k, is_Some (env !! k) → is_Some ((m env).2 !! k).

(** The lines that end the loop. *)
Definition is_quit (input : string) : bool :=
  startswith (strip input) [":"]
  && mem_string (strip (lower (strip input))) [":quit"; ":q"; ":exit"].

(** * Properties *)

(** ** Induction on trees through their children *)

Section Induction.
Variable P : node → Prop.
Hypothesis step : ∀ n, Forall P (children n) → P n.

Fixpoint node_children_ind (n : node) {struct n} : P n :=
  let all :=
    fix all (l : list node) : Forall P l :=
      match l with
      | [] => @List.Forall_nil node P
      | x :: l' => @List.Forall_cons node P x _ (node_children_ind x) (all l')
      end in
  let all_kw :=
    fix all_kw (l : list keyword) : Forall P (map keyword_value l) :=
      match l with
      | [] => @List.Forall_nil node P
      | Keyword a v :: l' =>
          @List.Forall_cons node P v _ (node_children_ind v) (all_kw l')
      end in
  let one (x : node) : Forall P [x] :=
    @List.Forall_cons node P x _ (node_children_ind x) (@List.Forall_nil node P) in
  step n
    match n return Forall P (children n) with
    | Expression body => one body
    | Module body => all body
    | Expr value => one value
    | Assign targets value => Forall_app_2 P targets [value] (all targets) (one value)
    | Call func args keywords =>
        @List.Forall_cons node P func _ (node_children_ind func)
          (Forall_app_2 P args _ (all args) (all_kw keywords))
    | BinOp lhs _ rhs => @List.Forall_cons node P lhs _ (node_children_ind lhs) (one rhs)
    | UnaryOp _ operand => one operand
    | IfExp test body orelse =>
        @List.Forall_cons node P test _ (node_children_ind test)
          (@List.Forall_cons node P body _ (node_children_ind body) (one orelse))
    | Compare lhs comparators =>
        @List.Forall_cons node P lhs _ (node_children_ind lhs) (all comparators)
    | BoolOp values => all values
    | Lambda body => one body
    | Attribute value _ => one value
    | Subscript value slice =>
        @List.Forall_cons node P value _ (node_children_ind value) (one slice)
    | List_ elts => all elts
    | Tuple elts => all elts
    | Dict keys values => Forall_app_2 P keys values (all keys) (all values)
    | Other _ children => all children
    | Name _ | Constant _ | Num _ => @List.Forall_nil node P
    end.
End Induction.

Section Properties.
Variable arith : operator → value → value → res value.
Variable math : pyfunc → list value → res value.
Variable ast_parse : string → mode → res node.

Local Abbreviation visit := (visit arith math).
Local Abbreviation visit_args := (visit_args arith math).
Local Abbreviation visit_keywords := (visit_keywords arith math).
Local Abbreviation generic_visit := (generic_visit arith math).
Local Abbreviation eval_line := (eval_line arith math ast_parse).
Local Abbreviation repl_step := (repl_step arith math ast_parse).

(** ** The equations of [visit], one per method *)

Lemma visit_Call_eq func args kws :
  visit (Call func args kws) =
  (let! f := visit func in
   match in_FUNCS_values f with
   | None => raise (ValueError "Only approved functions are allowed")
   | Some f =>
       let! vs := visit_args args in
       let! kwargs := visit_keywords kws [] in
       lift (call_function math f vs kwargs)
   end).
Proof. reflexivity. Qed.

Lemma visit_BinOp_eq lhs op rhs :
  visit (BinOp lhs op rhs) =
  (let! l := visit lhs in let! r := visit rhs in apply_BinOp arith op l r).
Proof. reflexivity. Qed.

Lemma visit_Other_eq cls children :
  visit (Other cls children) = generic_visit children.
Proof. reflexivity. Qed.

Lemma visit_Assign_Name_eq id value :
  visit (Assign [Name id] value) =
  (let! v := visit value in let! _ := env_set id v in ret (VTuple id v)).
Proof. reflexivity. Qed.

Lemma eval_line_eq s :
  eval_line s =
  except_SyntaxError
    (if looks_like_assignment (strip s) then
       let! tree := lift (ast_parse (strip s) mode_exec) in visit tree
     else
       let! tree := lift (ast_parse (strip s) mode_eval) in visit tree).
Proof. reflexivity. Qed.

(** [eval_line] on a line whose tree is known. *)
Lemma eval_line_parsed s tree env :
  ast_parse (strip s) (line_mode s) = OK tree →
  eval_line s env = except_SyntaxError (visit tree) env.
Proof.
  intros H. rewrite eval_line_eq. unfold line_mode in H.
  destruct (looks_like_assignment (strip s));
    unfold except_SyntaxError, bind, lift; rewrite H; reflexivity.
Qed.

Lemma except_SyntaxError_OK (m : M value) env v env' :
  m env = (OK v, env') → except_SyntaxError m env = (OK v, env').
Proof. unfold except_SyntaxError. intros ->. reflexivity. Qed.

Lemma eval_line_value s tree env v env' :
  ast_parse (strip s) (line_mode s) = OK tree →
  visit tree env = (OK v, env') →
  eval_line s env = (OK v, env').
Proof.
  intros Hp Hv. rewrite (eval_line_parsed _ _ _ Hp).
  by apply except_SyntaxError_OK.
Qed.

Lemma eval_line_raise s tree env e env' :
  ast_parse (strip s) (line_mode s) = OK tree →
  visit tree env = (Raise e, env') →
  not_SyntaxError e = true →
  eval_line s env = (Raise e, env').
Proof.
  intros Hp Hv He. rewrite (eval_line_parsed _ _ _ Hp).
  unfold except_SyntaxError. rewrite Hv. by destruct e.
Qed.

(** ** Computations that always raise *)

Lemma fails_raise {A} e : fails (raise (A:=A) e).
Proof. intros env. by eexists _, _. Qed.

Lemma fails_bind_l {A B} (m : M A) (k : A → M B) :
  fails m → fails (bind m k).
Proof.
  intros Hm env. destruct (Hm env) as (e & env' & H).
  unfold bind. rewrite H. by eexists _, _.
Qed.

Lemma fails_bind_r {A B} (m : M A) (k : A → M B) :
  (∀ a, fails (k a)) → fails (bind m k).
Proof.
  intros Hk env. unfold bind.
  destruct (m env) as [[a | e] env']; [apply Hk | by eexists _, _].
Qed.

Local Abbreviation fails_if_rejected :=
  (λ n, has_rejected n = true → fails (visit n)).

Lemma visit_args_fails l :
  Forall fails_if_rejected l →
  existsb has_rejected l = true → fails (visit_args l).
Proof.
  induction 1 as [| n l Hn _ IH]; cbn; [done |].
  intros [H | H]%orb_true_iff.
  - apply fails_bind_l. by apply Hn.
  - apply fails_bind_r. intros v. apply fails_bind_l. by apply IH.
Qed.

Lemma visit_keywords_fails l d :
  Forall fails_if_rejected (map keyword_value l) →
  existsb (λ k, match k with Keyword _ v => has_rejected v end) l = true →
  fails (visit_keywords l d).
Proof.
  revert d. induction l as [| [arg v] l IH]; cbn; [done |].
  intros d [Hv Hl]%Forall_cons [H | H]%orb_true_iff.
  - apply fails_bind_l. by apply Hv.
  - apply fails_bind_r. intros w. by apply IH.
Qed.

Lemma generic_visit_fails l :
  Forall fails_if_rejected l →
  existsb has_rejected l = true → fails (generic_visit l).
Proof.
  induction 1 as [| n l Hn _ IH]; cbn; [done |].
  intros [H | H]%orb_true_iff.
  - apply fails_bind_l. by apply Hn.
  - apply fails_bind_r. intros _. by apply IH.
Qed.

(** A tree with a rejected construct in it never evaluates to a value:
    every child is visited before its parent can return. *)
Lemma has_rejected_fails n : has_rejected n = true → fails (visit n).
Proof.
  induction n as [n IH] using node_children_ind.
  intros Hrej.
  destruct n; cbn [children has_rejected] in *; try discriminate;
    try (cbn; apply fails_raise).
  - (* Expression *)
    apply Forall_cons in IH as [Hb _]. by apply Hb.
  - (* Module *)
    destruct body as [| stmt [| ? ?]]; try (cbn; apply fails_raise).
    apply Forall_cons in IH as [Hs _]. cbn in Hrej.
    rewrite orb_false_r in Hrej. by apply Hs.
  - (* Expr *)
    apply Forall_cons in IH as [Hb _]. by apply Hb.
  - (* Assign *)
    destruct targets as [| t [| ? ?]]; try (cbn; apply fails_raise).
    destruct t; try (cbn; apply fails_raise).
    apply Forall_cons in IH as [_ [Hv _]%Forall_cons].
    rewrite visit_Assign_Name_eq. apply fails_bind_l. by apply Hv.
  - (* Call *)
    apply Forall_cons in IH as [Hf [Ha Hk]%Forall_app].
    rewrite visit_Call_eq.
    destruct (has_rejected n) eqn:Ef; [apply fails_bind_l; by apply Hf |].
    apply fails_bind_r. intros f.
    destruct (in_FUNCS_values f); [| apply fails_raise].
    destruct (existsb has_rejected args) eqn:Ea;
      [apply fails_bind_l; by apply visit_args_fails |].
    apply fails_bind_r. intros vs. apply fails_bind_l.
    by apply visit_keywords_fails.
  - (* BinOp *)
    apply Forall_cons in IH as [Hl [Hr _]%Forall_cons].
    rewrite visit_BinOp_eq.
    apply orb_true_iff in Hrej as [H | H].
    + apply fails_bind_l. by apply Hl.
    + apply fails_bind_r. intros l. apply fails_bind_l. by apply Hr.
  - (* UnaryOp *)
    apply Forall_cons in IH as [Ho _].
    change (fails (let! v := visit n in apply_UnaryOp op v)).
    apply fails_bind_l. by apply Ho.
  - (* Other *)
    rewrite visit_Other_eq. by apply generic_visit_fails.
Qed.

(** ** Computations that leave the environment alone *)

Lemma preserves_ret {A} (a : A) : preserves (ret a).
Proof. done. Qed.

Lemma preserves_raise {A} e : preserves (raise (A:=A) e).
Proof. done. Qed.

Lemma preserves_lift {A} (r : res A) : preserves (lift r).
Proof. done. Qed.

Lemma preserves_bind {A B} (m : M A) (k : A → M B) :
  preserves m → (∀ a, preserves (k a)) → preserves (bind m k).
Proof.
  intros Hm Hk env. unfold bind. specialize (Hm env).
  destruct (m env) as [[a | e] env']; cbn in *; subst; [apply Hk | done].
Qed.

Lemma preserves_visit_Name id : preserves (visit_Name id).
Proof.
  intros env. unfold visit_Name.
  destruct (env !! id); [done |].
  destruct (assoc id CONSTS); [done |].
  by destruct (assoc id FUNCS).
Qed.

Lemma preserves_apply_BinOp op l r : preserves (apply_BinOp arith op l r).
Proof.
  unfold apply_BinOp. destruct (BIN_OPS arith op); [| done].
  by destruct (guarded op && py_eq_zero r).
Qed.

Lemma preserves_apply_UnaryOp op v : preserves (apply_UnaryOp op v).
Proof. unfold apply_UnaryOp. by destruct (UNARY_OPS op). Qed.

Local Abbreviation preserves_if_no_Assign :=
  (λ n, has_Assign n = false → preserves (visit n)).

Lemma visit_args_preserves l :
  Forall preserves_if_no_Assign l →
  existsb has_Assign l = false → preserves (visit_args l).
Proof.
  induction 1 as [| n l Hn _ IH]; cbn; [done |].
  intros [H1 H2]%orb_false_iff.
  apply preserves_bind; [by apply Hn |]. intros v.
  apply preserves_bind; [by apply IH | done].
Qed.

Lemma visit_keywords_preserves l d :
  Forall preserves_if_no_Assign (map keyword_value l) →
  existsb (λ k, match k with Keyword _ v => has_Assign v end) l = false →
  preserves (visit_keywords l d).
Proof.
  revert d. induction l as [| [arg v] l IH]; cbn; [done |].
  intros d [Hv Hl]%Forall_cons [H1 H2]%orb_false_iff.
  apply preserves_bind; [by apply Hv |]. intros w. by apply IH.
Qed.

Lemma generic_visit_preserves l :
  Forall preserves_if_no_Assign l →
  existsb has_Assign l = false → preserves (generic_visit l).
Proof.
  induction 1 as [| n l Hn _ IH]; cbn; [done |].
  intros [H1 H2]%orb_false_iff.
  apply preserves_bind; [by apply Hn |]. intros _. by apply IH.
Qed.

(** Only [visit_Assign] writes: a tree without an assignment statement
    leaves the environment as it was, whether it returns or raises. *)
Lemma no_Assign_preserves n : has_Assign n = false → preserves (visit n).
Proof.
  induction n as [n IH] using node_children_ind.
  intros Hn.
  destruct n; cbn [children has_Assign] in *; try discriminate;
    try (cbn; apply preserves_raise).
  - apply Forall_cons in IH as [Hb _]. by apply Hb.
  - destruct body as [| stmt [| ? ?]]; try (cbn; apply preserves_raise).
    apply Forall_cons in IH as [Hs _]. cbn in Hn.
    rewrite orb_false_r in Hn. by apply Hs.
  - apply Forall_cons in IH as [Hb _]. by apply Hb.
  - apply preserves_visit_Name.
  - apply Forall_cons in IH as [Hf [Ha Hk]%Forall_app].
    apply orb_false_iff in Hn as [[H1 H2]%orb_false_iff H3].
    rewrite visit_Call_eq.
    apply preserves_bind; [by apply Hf |]. intros f.
    destruct (in_FUNCS_values f); [| done].
    apply preserves_bind; [by apply visit_args_preserves |]. intros vs.
    apply preserves_bind; [by apply visit_keywords_preserves | done].
  - apply Forall_cons in IH as [Hl [Hr _]%Forall_cons].
    apply orb_false_iff in Hn as [H1 H2].
    rewrite visit_BinOp_eq.
    apply preserves_bind; [by apply Hl |]. intros l.
    apply preserves_bind; [by apply Hr |]. intros r.
    apply preserves_apply_BinOp.
  - apply Forall_cons in IH as [Ho _].
    change (preserves (let! v := visit n in apply_UnaryOp op v)).
    apply preserves_bind; [by apply Ho |]. intros v.
    apply preserves_apply_UnaryOp.
  - match goal with c : constant |- _ => by destruct c end.
  - done.
  - rewrite visit_Other_eq. by apply generic_visit_preserves.
Qed.

(** ** Name resolution *)

(** C6. A name is looked up in the environment first, then among the
    constants, then among the functions, and the first table that has it
    decides; a name in none of them raises [NameError] with the message
    [Unknown name: <name>].  After the line [pi = 1] the line [pi] gives
    the environment's 1 and not the constant. *)
Theorem name_resolution_order :
  (∀ id env v, env !! id = Some v → visit (Name id) env = (OK v, env))
  ∧ (∀ id env c,
       env !! id = None → assoc id CONSTS = Some c →
       visit (Name id) env = (OK c, env))
  ∧ (∀ id env f,
       env !! id = None → assoc id CONSTS = None → assoc id FUNCS = Some f →
       visit (Name id) env = (OK (VFunc f), env))
  ∧ (∀ id env,
       env !! id = None → assoc id CONSTS = None → assoc id FUNCS = None →
       visit (Name id) env = (Raise (NameError ("Unknown name: " ++ id)), env))
  ∧ (∀ env,
       ast_parse "pi = 1" mode_exec = OK (Module [Assign [Name "pi"] (int_lit 1)]) →
       ast_parse "pi" mode_eval = OK (Expression (Name "pi")) →
       is_Some (assoc "pi" CONSTS)
       ∧ eval_line "pi = 1" env = (OK (VTuple "pi" (VInt 1)), <["pi" := VInt 1]> env)
       ∧ eval_line "pi" (<["pi" := VInt 1]> env)
         = (OK (VInt 1), <["pi" := VInt 1]> env)).
Proof.
  repeat split.
  - intros id env v H. cbn. unfold visit_Name. by rewrite H.
  - intros id env c H1 H2. cbn. unfold visit_Name. by rewrite H1, H2.
  - intros id env f H1 H2 H3. cbn. unfold visit_Name. by rewrite H1, H2, H3.
  - intros id env H1 H2 H3. cbn. unfold visit_Name. by rewrite H1, H2, H3.
  - by eexists.
  - by eapply eval_line_value; [exact H |].
  - eapply eval_line_value; [exact H0 |].
    cbn. unfold visit_Name. by rewrite lookup_insert_eq.
Qed.

(** ** Division by zero *)

(** C5. When the operator is [/], [//] or [%] and the right operand has
    evaluated to something equal to 0, [visit_BinOp] raises
    [ZeroDivisionError("Division by zero")] whatever the left operand is
    and whatever the arithmetic of the interpreter would have answered: the
    statement holds for every [arith], which is never consulted.  The
    lines [1 / 0], [1 // 0] and [1 % 0] each raise it. *)
Theorem division_by_zero_guard :
  (∀ lhs op rhs env vl env1 vr env2,
      guarded op = true →
      visit lhs env = (OK vl, env1) →
      visit rhs env1 = (OK vr, env2) →
      py_eq_zero vr = true →
      visit (BinOp lhs op rhs) env
      = (Raise (ZeroDivisionError "Division by zero"), env2))
  ∧ (∀ env,
       ast_parse "1 / 0" mode_eval = OK (Expression (BinOp (int_lit 1) Div (int_lit 0))) →
       eval_line "1 / 0" env = (Raise (ZeroDivisionError "Division by zero"), env))
  ∧ (∀ env,
       ast_parse "1 // 0" mode_eval
       = OK (Expression (BinOp (int_lit 1) FloorDiv (int_lit 0))) →
       eval_line "1 // 0" env = (Raise (ZeroDivisionError "Division by zero"), env))
  ∧ (∀ env,
       ast_parse "1 % 0" mode_eval = OK (Expression (BinOp (int_lit 1) Mod (int_lit 0))) →
       eval_line "1 % 0" env = (Raise (ZeroDivisionError "Division by zero"), env)).
Proof.
  repeat split.
  - intros lhs op rhs env vl env1 vr env2 Hop Hl Hr Hz.
    rewrite visit_BinOp_eq. unfold bind. rewrite Hl, Hr.
    unfold apply_BinOp. rewrite Hop, Hz.
    by destruct op.
  - intros env H. by eapply eval_line_raise; [exact H | |].
  - intros env H. by eapply eval_line_raise; [exact H | |].
  - intros env H. by eapply eval_line_raise; [exact H | |].
Qed.

(** ** Boolean literals *)

(** C10. [visit_Constant] returns a boolean literal as it is, because
    [isinstance(True, (int, float))] holds; so the lines [True] and
    [False] evaluate to the values [True] and [False], which count as 1
    and 0 in arithmetic, and [True + 1] evaluates to 2.  None of them
    raises. *)
Theorem boolean_literals_are_numbers :
  (∀ b env, visit (Constant (CBool b)) env = (OK (VBool b), env))
  ∧ as_int (VBool true) = Some 1
  ∧ as_int (VBool false) = Some 0
  ∧ (∀ env,
       ast_parse "True" mode_eval = OK (Expression (Constant (CBool true))) →
       eval_line "True" env = (OK (VBool true), env))
  ∧ (∀ env,
       ast_parse "False" mode_eval = OK (Expression (Constant (CBool false))) →
       eval_line "False" env = (OK (VBool false), env))
  ∧ (∀ env,
       ast_parse "True + 1" mode_eval
       = OK (Expression (BinOp (Constant (CBool true)) Add (int_lit 1))) →
       eval_line "True + 1" env = (OK (VInt 2), env)).
Proof.
  repeat split.
  - intros env H. by eapply eval_line_value; [exact H |].
  - intros env H. by eapply eval_line_value; [exact H |].
  - intros env H. by eapply eval_line_value; [exact H |].
Qed.

(** ** The loop body around [eval_line] *)

Lemma repl_step_line input env :
  String.eqb (strip input) "" = false →
  startswith (strip input) [":"] = false →
  repl_step input env = report (eval_line (strip input) env).
Proof.
  intros H1 H2.
  change (repl_step input env) with
    (if String.eqb (strip input) "" then Continue [] env
     else if startswith (strip input) [":"]
          then command (strip (lower (strip input))) env
          else report (eval_line (strip input) env)).
  by rewrite H1, H2.
Qed.

(** ** Node classes without a method *)

(** C1. A set literal has no [visit_Set]: [generic_visit] visits the two
    elements and returns [None], so the line [{1, 2}] is answered with
    [None] and no exception, and the loop then fails in [float(None)]
    with a [TypeError] that none of its [except] clauses names. *)
Theorem set_literal_is_passed_through :
  ∀ env,
    ast_parse "{1, 2}" mode_eval = OK (Expression (Other "Set" [int_lit 1; int_lit 2])) →
    rejected (Other "Set" [int_lit 1; int_lit 2]) = None
    ∧ eval_line "{1, 2}" env = (OK VNone, env)
    ∧ repl_step "{1, 2}" env
      = Uncaught
          (TypeError "float() argument must be a string or a real number, not 'NoneType'")
          env.
Proof.
  intros env H.
  assert (eval_line "{1, 2}" env = (OK VNone, env)) as E
    by (by eapply eval_line_value; [exact H |]).
  repeat split; [done |].
  rewrite repl_step_line by done.
  change (strip "{1, 2}") with "{1, 2}". by rewrite E.
Qed.

(** ** Failure and the environment *)

(** C2. The line [if 1: y = 2; z] is one statement, so [visit_Module]
    lets it in; [If] has no method, [generic_visit] runs the assignment
    and then reaches the unknown name: [eval_line] raises [NameError] and
    the environment has gained [y].  The loop prints the error and goes
    on with the changed environment. *)
Theorem compound_statement_mutates_then_raises :
  ∀ env,
    ast_parse "if 1: y = 2; z" mode_exec
    = OK (Module [Other "If" [int_lit 1; Assign [Name "y"] (int_lit 2); Expr (Name "z")]]) →
    env !! "z" = None →
    env !! "y" = None →
    eval_line "if 1: y = 2; z" env
    = (Raise (NameError "Unknown name: z"), <["y" := VInt 2]> env)
    ∧ <["y" := VInt 2]> env ≠ env
    ∧ repl_step "if 1: y = 2; z" env
      = Continue [Out_error "Unknown name: z"] (<["y" := VInt 2]> env).
Proof.
  intros env H Hz Hy.
  assert (eval_line "if 1: y = 2; z" env
          = (Raise (NameError "Unknown name: z"), <["y" := VInt 2]> env)) as E.
  { eapply eval_line_raise; [exact H | | done].
    cbn. unfold bind, visit_Name; cbn.
    rewrite lookup_insert_ne by done. by rewrite Hz. }
  repeat split; [done | |].
  - intros Heq. apply (f_equal (λ m : Env, m !! "y")) in Heq.
    rewrite lookup_insert_eq, Hy in Heq. discriminate.
  - rewrite repl_step_line by done.
    change (strip "if 1: y = 2; z") with "if 1: y = 2; z". by rewrite E.
Qed.

(** What does hold: an assignment whose right-hand side has no statement
    inside stores nothing when the right-hand side raises. *)
Lemma failed_assignment_stores_nothing id value env e env' :
  has_Assign value = false →
  visit (Module [Assign [Name id] value]) env = (Raise e, env') →
  env' = env.
Proof.
  intros Hv. change (visit (Module [Assign [Name id] value]))
    with (visit (Assign [Name id] value)).
  rewrite visit_Assign_Name_eq. unfold bind.
  pose proof (no_Assign_preserves value Hv env) as Hp.
  destruct (visit value env) as [[v | e0] env0]; cbn in *; [done |].
  intros [= _ <-]. done.
Qed.

(** ** Rejected constructs *)

(** C3, as amended. A tree that contains a comparison, a boolean
    operator, a conditional expression, a lambda, an attribute access, a
    subscript or a list, tuple or dict display never evaluates to a
    value: visiting the construct itself raises the [ValueError] that
    names it, and a tree around it raises either that or whatever an
    earlier part raised first.  A line that does not parse raises
    [ValueError] with [Syntax error: ] before the parser's message. *)
Theorem rejected_construct_always_raises :
  (∀ n msg env, rejected n = Some msg → visit n env = (Raise (ValueError msg), env))
  ∧ (∀ tree env, has_rejected tree = true → ∃ e env', visit tree env = (Raise e, env'))
  ∧ (∀ s tree env,
       ast_parse (strip s) (line_mode s) = OK tree →
       has_rejected tree = true →
       ∃ e env', eval_line s env = (Raise e, env'))
  ∧ (∀ s msg env,
       ast_parse (strip s) (line_mode s) = Raise (SyntaxError msg) →
       eval_line s env = (Raise (ValueError ("Syntax error: " ++ msg)), env)).
Proof.
  repeat split.
  - intros n msg env H. destruct n; cbn in H; try discriminate;
      injection H as <-; reflexivity.
  - intros tree env H. by apply has_rejected_fails.
  - intros s tree env Hp H.
    destruct (has_rejected_fails tree H env) as (e & env' & Hv).
    rewrite (eval_line_parsed _ _ _ Hp). unfold except_SyntaxError.
    rewrite Hv. destruct e; by eexists _, _.
  - intros s msg env Hp. rewrite eval_line_eq. unfold line_mode in Hp.
    destruct (looks_like_assignment (strip s));
      unfold except_SyntaxError, bind, lift; by rewrite Hp.
Qed.

(** ** Arguments that do not fit the function *)

(** C4. A call of [sqrt], [sin], [cos], [tan], [exp] or [abs] with any
    number of positional arguments other than one, or with a keyword,
    raises [TypeError].  [eval_line] passes it on unchanged and the loop
    has no [except] clause for it: the lines [sqrt(1, 2)] and
    [sqrt(4, x=1)] leave the loop with that exception. *)
Theorem arity_mismatch_is_an_uncaught_TypeError :
  (∀ f args kwargs,
      takes_one_argument f = true →
      length args ≠ 1%nat ∨ kwargs ≠ [] →
      ∃ msg, call_function math f args kwargs = Raise (TypeError msg))
  ∧ (∀ msg, handled (TypeError msg) = None)
  ∧ (∀ env,
       ast_parse "sqrt(1, 2)" mode_eval
       = OK (Expression (Call (Name "sqrt") [int_lit 1; int_lit 2] [])) →
       env !! "sqrt" = None →
       eval_line "sqrt(1, 2)" env
       = (Raise (TypeError "math.sqrt() takes exactly one argument (2 given)"), env)
       ∧ repl_step "sqrt(1, 2)" env
         = Uncaught (TypeError "math.sqrt() takes exactly one argument (2 given)") env)
  ∧ (∀ env,
       ast_parse "sqrt(4, x=1)" mode_exec
       = OK (Module [Expr (Call (Name "sqrt") [int_lit 4]
                             [Keyword (Some "x") (int_lit 1)])]) →
       env !! "sqrt" = None →
       eval_line "sqrt(4, x=1)" env
       = (Raise (TypeError "math.sqrt() takes no keyword arguments"), env)
       ∧ repl_step "sqrt(4, x=1)" env
         = Uncaught (TypeError "math.sqrt() takes no keyword arguments") env).
Proof.
  split; [| split; [done | split]].
  - intros f args kwargs Hf Hbad. unfold call_function.
    destruct (string_keys kwargs) as [kw |] eqn:Hk; [| by eexists].
    assert (kw = [] → kwargs = []) as Hnil.
    { intros ->. destruct kwargs as [| [[k |] v] d]; cbn in Hk; [done | | done].
      by destruct (string_keys d). }
    destruct f; try discriminate; unfold call_one;
      (destruct kw; [| by eexists]);
      (destruct args as [| x [| y args]]; [by eexists | | by eexists]);
      (destruct Hbad as [Hbad | Hbad]; [by destruct Hbad | by destruct Hbad; apply Hnil]).
  - intros env H Hs.
    assert (eval_line "sqrt(1, 2)" env
            = (Raise (TypeError "math.sqrt() takes exactly one argument (2 given)"), env))
      as E.
    { eapply eval_line_raise; [exact H | | done].
      cbn. unfold bind, visit_Name. by rewrite Hs. }
    split; [done |]. rewrite repl_step_line by done.
    change (strip "sqrt(1, 2)") with "sqrt(1, 2)". by rewrite E.
  - intros env H Hs.
    assert (eval_line "sqrt(4, x=1)" env
            = (Raise (TypeError "math.sqrt() takes no keyword arguments"), env)) as E.
    { eapply eval_line_raise; [exact H | | done].
      cbn. unfold bind, visit_Name. by rewrite Hs. }
    split; [done |]. rewrite repl_step_line by done.
    change (strip "sqrt(4, x=1)") with "sqrt(4, x=1)". by rewrite E.
Qed.

(** ** Which lines are statements *)

(** C7, as amended. A line with an [=] in it that does not begin with
    [==] or [!=] is parsed in statement mode and every other line in
    expression mode.  The statement must be a single one: an assignment
    to one bare name returns the pair of the name and the value and stores
    it (or raises what the right-hand side raises), an assignment to
    anything else raises, and an expression statement returns the bare
    value of its expression. *)
Theorem line_with_equals_is_one_statement :
  (∀ s env,
      looks_like_assignment (strip s) = true →
      eval_line s env
      = except_SyntaxError
          (let! tree := lift (ast_parse (strip s) mode_exec) in visit tree) env)
  ∧ (∀ s env,
       looks_like_assignment (strip s) = false →
       eval_line s env
       = except_SyntaxError
           (let! tree := lift (ast_parse (strip s) mode_eval) in visit tree) env)
  ∧ (∀ id value env v env',
       visit value env = (OK v, env') →
       visit (Module [Assign [Name id] value]) env
       = (OK (VTuple id v), <[id := v]> env'))
  ∧ (∀ id value env e env',
       visit value env = (Raise e, env') →
       visit (Module [Assign [Name id] value]) env = (Raise e, env'))
  ∧ (∀ value env, visit (Module [Expr value]) env = visit value env)
  ∧ (∀ body env,
       length body ≠ 1%nat →
       visit (Module body) env
       = (Raise (ValueError "Only single expressions/assignments allowed"), env))
  ∧ (∀ target value env,
       (∀ id, target ≠ Name id) →
       visit (Module [Assign [target] value]) env
       = (Raise (ValueError "Left side must be a variable name"), env))
  ∧ (∀ targets value env,
       length targets ≠ 1%nat →
       visit (Module [Assign targets value]) env
       = (Raise (ValueError "Only simple assignments supported (e.g., x = 3)"), env)).
Proof.
  repeat split.
  - intros s env H. rewrite eval_line_eq. by rewrite H.
  - intros s env H. rewrite eval_line_eq. by rewrite H.
  - intros id value env v env' H.
    change (visit (Module [Assign [Name id] value]))
      with (visit (Assign [Name id] value)).
    rewrite visit_Assign_Name_eq. unfold bind. by rewrite H.
  - intros id value env e env' H.
    change (visit (Module [Assign [Name id] value]))
      with (visit (Assign [Name id] value)).
    rewrite visit_Assign_Name_eq. unfold bind. by rewrite H.
  - intros body env H. by destruct body as [| ? [| ? ?]].
  - intros target value env H. destruct target; try done. by destruct (H id).
  - intros targets value env H. by destruct targets as [| ? [| ? ?]].
Qed.

(** ** The two logarithms *)

(** C8. [log] is the lambda with [base=10] as default: called with one
    argument it computes [math.log(x, 10)], and the base can be given by
    the keyword [base] or as second positional argument.  [ln] is another
    entry, [math.log] itself, natural when called with one argument.
    The lines [log(1000, base=10)] and [log(1000)] both return, as a bare
    value, what [math.log(1000, 10)] returns; when that is within 1e-9
    of 3.0, as on an IEEE-754 platform, so is the result of both lines. *)
Theorem log_has_optional_base_10 :
  (∀ x, call_function math lambda_log [x] [] = math math_log [x; VInt 10])
  ∧ (∀ x b, call_function math lambda_log [x] [(Some "base", b)] = math math_log [x; b])
  ∧ (∀ x b, call_function math lambda_log [x; b] [] = math math_log [x; b])
  ∧ assoc "log" FUNCS = Some lambda_log
  ∧ assoc "ln" FUNCS = Some math_log
  ∧ lambda_log ≠ math_log
  ∧ (∀ x, call_function math math_log [x] [] = math math_log [x])
  ∧ (∀ env r,
       ast_parse "log(1000, base=10)" mode_exec
       = OK (Module [Expr (Call (Name "log") [int_lit 1000]
                             [Keyword (Some "base") (int_lit 10)])]) →
       ast_parse "log(1000)" mode_eval
       = OK (Expression (Call (Name "log") [int_lit 1000] [])) →
       env !! "log" = None →
       math math_log [VInt 1000; VInt 10] = OK (VFloat r) →
       within 0x1.12e0be826d695p-30 3 r = true →
       eval_line "log(1000, base=10)" env = (OK (VFloat r), env)
       ∧ eval_line "log(1000)" env = (OK (VFloat r), env)
       ∧ within 0x1.12e0be826d695p-30 3 r = true).
Proof.
  repeat split; try done.
  - eapply eval_line_value; [exact H |].
    cbn. unfold bind, visit_Name. rewrite H1. cbn. by rewrite H2.
  - eapply eval_line_value; [exact H0 |].
    cbn. unfold bind, visit_Name. rewrite H1. cbn. by rewrite H2.
Qed.

(** ** The target of a call *)

(** C9, as amended. The target of a call is an expression like any
    other: a name is looked up in the environment first, then among the
    constants, then among the functions.  The call goes on only if the
    value found is one of the registered function objects and raises
    [ValueError("Only approved functions are allowed")] otherwise, before
    any argument is evaluated.  So a variable or constant is never called,
    a variable that holds a registered function is, and a variable named
    like a function hides it: after [sqrt = 5] the line [sqrt(4)] is
    rejected. *)
Theorem call_target_is_resolved_like_a_name :
  (∀ func args kws env v env',
      visit func env = (OK v, env') →
      in_FUNCS_values v = None →
      visit (Call func args kws) env
      = (Raise (ValueError "Only approved functions are allowed"), env'))
  ∧ (∀ func args kws env f env',
       visit func env = (OK (VFunc f), env') →
       visit (Call func args kws) env
       = (let! vs := visit_args args in
          let! kwargs := visit_keywords kws [] in
          lift (call_function math f vs kwargs)) env')
  ∧ (∀ id args kws env v,
       env !! id = Some v →
       in_FUNCS_values v = None →
       visit (Call (Name id) args kws) env
       = (Raise (ValueError "Only approved functions are allowed"), env))
  ∧ (∀ id args kws env c,
       env !! id = None →
       assoc id CONSTS = Some c →
       visit (Call (Name id) args kws) env
       = (Raise (ValueError "Only approved functions are allowed"), env))
  ∧ (∀ env,
       ast_parse "sqrt = 5" mode_exec = OK (Module [Assign [Name "sqrt"] (int_lit 5)]) →
       ast_parse "sqrt(4)" mode_eval = OK (Expression (Call (Name "sqrt") [int_lit 4] [])) →
       is_Some (assoc "sqrt" FUNCS)
       ∧ eval_line "sqrt = 5" env
         = (OK (VTuple "sqrt" (VInt 5)), <["sqrt" := VInt 5]> env)
       ∧ eval_line "sqrt(4)" (<["sqrt" := VInt 5]> env)
         = (Raise (ValueError "Only approved functions are allowed"),
            <["sqrt" := VInt 5]> env)).
Proof.
  split; [| split; [| split; [| split]]].
  - intros func args kws env v env' Hv Hn.
    rewrite visit_Call_eq. unfold bind. by rewrite Hv, Hn.
  - intros func args kws env f env' Hv.
    rewrite visit_Call_eq. unfold bind at 1. by rewrite Hv.
  - intros id args kws env v Hv Hn.
    rewrite visit_Call_eq. unfold bind. cbn. unfold visit_Name.
    by rewrite Hv, Hn.
  - intros id args kws env c Hv Hc.
    rewrite visit_Call_eq. unfold bind. cbn. unfold visit_Name.
    rewrite Hv, Hc.
    assert (in_FUNCS_values c = None) as ->; [| done].
    unfold CONSTS in Hc. cbn in Hc.
    repeat (destruct (String.eqb id _); [by injection Hc as <- |]).
    discriminate.
  - intros env H1 H2. split; [by eexists | split].
    + by eapply eval_line_value; [exact H1 |].
    + eapply eval_line_raise; [exact H2 | | done].
      cbn. unfold bind, visit_Name. by rewrite lookup_insert_eq.
Qed.
End Properties.

(** * The theorems at concrete lines

    The parser is [parse_table], the library [no_arith] and [sample_math],
    and the environment the one the loop starts with, [{"ans": 0.0}]. *)

Lemma name_resolution_order_witness :
  visit no_arith sample_math (Name "pi") (<["pi" := VInt 1]> initial_env)
  = (OK (VInt 1), <["pi" := VInt 1]> initial_env)
  ∧ visit no_arith sample_math (Name "e") initial_env
    = (OK (VFloat 0x1.5bf0a8b145769p+1%float), initial_env)
  ∧ visit no_arith sample_math (Name "sqrt") initial_env
    = (OK (VFunc math_sqrt), initial_env)
  ∧ visit no_arith sample_math (Name "zz") initial_env
    = (Raise (NameError "Unknown name: zz"), initial_env)
  ∧ eval_line no_arith sample_math parse_table "pi" (<["pi" := VInt 1]> initial_env)
    = (OK (VInt 1), <["pi" := VInt 1]> initial_env).
Proof.
  destruct (name_resolution_order no_arith sample_math parse_table)
    as (Henv & Hconst & Hfunc & Hnone & Hline).
  split; [apply Henv; reflexivity |].
  split; [apply Hconst; reflexivity |].
  split; [apply Hfunc; reflexivity |].
  split; [apply Hnone; reflexivity |].
  apply (Hline initial_env); reflexivity.
Defined.

Lemma division_by_zero_guard_witness :
  visit no_arith sample_math (BinOp (Name "ans") Mod (Constant (CBool false))) initial_env
  = (Raise (ZeroDivisionError "Division by zero"), initial_env)
  ∧ eval_line no_arith sample_math parse_table "1 / 0" initial_env
    = (Raise (ZeroDivisionError "Division by zero"), initial_env)
  ∧ eval_line no_arith sample_math parse_table "1 // 0" initial_env
    = (Raise (ZeroDivisionError "Division by zero"), initial_env)
  ∧ eval_line no_arith sample_math parse_table "1 % 0" initial_env
    = (Raise (ZeroDivisionError "Division by zero"), initial_env).
Proof.
  destruct (division_by_zero_guard no_arith sample_math parse_table)
    as (Hguard & Hdiv & Hfloor & Hmod).
  split; [eapply Hguard; reflexivity |].
  split; [apply Hdiv; reflexivity |].
  split; [apply Hfloor; reflexivity | apply Hmod; reflexivity].
Defined.

Lemma boolean_literals_are_numbers_witness :
  eval_line no_arith sample_math parse_table "True" initial_env
  = (OK (VBool true), initial_env)
  ∧ eval_line no_arith sample_math parse_table "False" initial_env
    = (OK (VBool false), initial_env)
  ∧ eval_line no_arith sample_math parse_table "True + 1" initial_env
    = (OK (VInt 2), initial_env).
Proof.
  destruct (boolean_literals_are_numbers no_arith sample_math parse_table)
    as (_ & _ & _ & Htrue & Hfalse & Hsum).
  split; [apply Htrue; reflexivity |].
  split; [apply Hfalse; reflexivity | apply Hsum; reflexivity].
Defined.

Lemma set_literal_is_passed_through_witness :
  parse_table "{1, 2}" mode_eval = OK (Expression (Other "Set" [int_lit 1; int_lit 2]))
  ∧ eval_line no_arith sample_math parse_table "{1, 2}" initial_env = (OK VNone, initial_env)
  ∧ repl_step no_arith sample_math parse_table "{1, 2}" initial_env
    = Uncaught
        (TypeError "float() argument must be a string or a real number, not 'NoneType'")
        initial_env.
Proof.
  split; [reflexivity |].
  apply (set_literal_is_passed_through no_arith sample_math parse_table initial_env).
  reflexivity.
Defined.

Lemma compound_statement_mutates_then_raises_witness :
  initial_env !! "y" = None
  ∧ eval_line no_arith sample_math parse_table "if 1: y = 2; z" initial_env
    = (Raise (NameError "Unknown name: z"), <["y" := VInt 2]> initial_env)
  ∧ <["y" := VInt 2]> initial_env ≠ initial_env
  ∧ repl_step no_arith sample_math parse_table "if 1: y = 2; z" initial_env
    = Continue [Out_error "Unknown name: z"] (<["y" := VInt 2]> initial_env).
Proof.
  split; [reflexivity |].
  apply (compound_statement_mutates_then_raises no_arith sample_math parse_table
           initial_env); reflexivity.
Defined.

Lemma rejected_construct_always_raises_witness :
  visit no_arith sample_math (Compare (int_lit 1) [int_lit 2]) initial_env
  = (Raise (ValueError "Comparisons are not allowed"), initial_env)
  ∧ (∃ e env',
       eval_line no_arith sample_math parse_table "1 if x else 0" initial_env
       = (Raise e, env'))
  ∧ (∃ e env',
       eval_line no_arith sample_math parse_table "y + (1 < 2)" initial_env
       = (Raise e, env')).
Proof.
  destruct (rejected_construct_always_raises no_arith sample_math parse_table)
    as (Hself & _ & Hline & _).
  split; [apply Hself; reflexivity |].
  split; eapply Hline; reflexivity.
Defined.

Lemma arity_mismatch_is_an_uncaught_TypeError_witness :
  (∃ msg, call_function sample_math math_sin [] [] = Raise (TypeError msg))
  ∧ (∃ msg,
       call_function sample_math builtin_abs [VInt 1] [(Some "x", VInt 2)]
       = Raise (TypeError msg))
  ∧ repl_step no_arith sample_math parse_table "sqrt(1, 2)" initial_env
    = Uncaught (TypeError "math.sqrt() takes exactly one argument (2 given)") initial_env
  ∧ repl_step no_arith sample_math parse_table "sqrt(4, x=1)" initial_env
    = Uncaught (TypeError "math.sqrt() takes no keyword arguments") initial_env.
Proof.
  destruct (arity_mismatch_is_an_uncaught_TypeError no_arith sample_math parse_table)
    as (Hcall & _ & Hpos & Hkw).
  split; [apply Hcall; [reflexivity | left; discriminate] |].
  split; [apply Hcall; [reflexivity | right; discriminate] |].
  split.
  - apply (Hpos initial_env); reflexivity.
  - apply (Hkw initial_env); reflexivity.
Defined.

Lemma line_with_equals_is_one_statement_witness :
  looks_like_assignment (strip " x = 5 ") = true
  ∧ visit no_arith sample_math (Module [Assign [Name "x"] (int_lit 5)]) initial_env
    = (OK (VTuple "x" (VInt 5)), <["x" := VInt 5]> initial_env)
  ∧ visit no_arith sample_math (Module [Assign [Name "x"] (Name "y")]) initial_env
    = (Raise (NameError "Unknown name: y"), initial_env)
  ∧ visit no_arith sample_math (Module [int_lit 1; int_lit 2]) initial_env
    = (Raise (ValueError "Only single expressions/assignments allowed"), initial_env)
  ∧ visit no_arith sample_math
      (Module [Assign [Subscript (Name "x") (int_lit 0)] (int_lit 1)]) initial_env
    = (Raise (ValueError "Left side must be a variable name"), initial_env)
  ∧ visit no_arith sample_math
      (Module [Assign [Name "x"; Name "y"] (int_lit 1)]) initial_env
    = (Raise (ValueError "Only simple assignments supported (e.g., x = 3)"), initial_env).
Proof.
  destruct (line_with_equals_is_one_statement no_arith sample_math parse_table)
    as (_ & _ & Hok & Hraise & _ & Hmany & Htarget & Htargets).
  split; [reflexivity |].
  split; [apply Hok; reflexivity |].
  split; [apply Hraise; reflexivity |].
  split; [apply Hmany; discriminate |].
  split; [apply Htarget; discriminate | apply Htargets; discriminate].
Defined.

Lemma log_has_optional_base_10_witness :
  sample_math math_log [VInt 1000; VInt 10] = OK (VFloat 0x1.7ffffffffffffp+1%float)
  ∧ eval_line no_arith sample_math parse_table "log(1000, base=10)" initial_env
    = (OK (VFloat 0x1.7ffffffffffffp+1%float), initial_env)
  ∧ eval_line no_arith sample_math parse_table "log(1000)" initial_env
    = (OK (VFloat 0x1.7ffffffffffffp+1%float), initial_env)
  ∧ within 0x1.12e0be826d695p-30 3 0x1.7ffffffffffffp+1 = true.
Proof.
  split; [reflexivity |].
  destruct (log_has_optional_base_10 no_arith sample_math parse_table)
    as (_ & _ & _ & _ & _ & _ & _ & Hline).
  apply (Hline initial_env); reflexivity.
Defined.

Lemma call_target_is_resolved_like_a_name_witness :
  visit no_arith sample_math (Call (Name "ans") [int_lit 1] []) initial_env
  = (Raise (ValueError "Only approved functions are allowed"), initial_env)
  ∧ visit no_arith sample_math (Call (Name "pi") [] []) initial_env
    = (Raise (ValueError "Only approved functions are allowed"), initial_env)
  ∧ visit no_arith sample_math (Call (Name "f") [int_lit (-3)] [])
      (<["f" := VFunc builtin_abs]> initial_env)
    = (OK (VInt 3), <["f" := VFunc builtin_abs]> initial_env)
  ∧ eval_line no_arith sample_math parse_table "sqrt(4)" (<["sqrt" := VInt 5]> initial_env)
    = (Raise (ValueError "Only approved functions are allowed"),
       <["sqrt" := VInt 5]> initial_env).
Proof.
  destruct (call_target_is_resolved_like_a_name no_arith sample_math parse_table)
    as (_ & Hfunc & Hvar & Hconst & Hline).
  split; [eapply Hvar; reflexivity |].
  split; [eapply Hconst; reflexivity |].
  split.
  - rewrite (Hfunc _ _ _ _ builtin_abs (<["f" := VFunc builtin_abs]> initial_env));
      reflexivity.
  - apply (Hline initial_env); reflexivity.
Defined.

(** * Where the design note and the program part *)

(** C3. [y + (1 < 2)] with [y] unbound: the left operand is visited first
    and raises [NameError]; the comparison is never reached, and the error
    is neither the one of a rejected construct nor a syntax error. *)
Lemma comparison_after_unknown_name :
  parse_table "y + (1 < 2)" mode_eval
  = OK (Expression (BinOp (Name "y") Add (Compare (int_lit 1) [int_lit 2])))
  ∧ has_rejected (Expression (BinOp (Name "y") Add (Compare (int_lit 1) [int_lit 2])))
    = true
  ∧ eval_line no_arith sample_math parse_table "y + (1 < 2)" initial_env
    = (Raise (NameError "Unknown name: y"), initial_env)
  ∧ ¬ is_UnsupportedConstruct (NameError "Unknown name: y")
  ∧ ¬ is_SyntaxError (NameError "Unknown name: y").
Proof.
  repeat split.
  - intros (n & msg & _ & H). discriminate.
  - intros (msg & H). discriminate.
Qed.

(** C7. [round(number=7)] has an [=] in it and does not begin with [==]
    or [!=]; it is an expression statement and [eval_line] returns the
    bare 7: neither a pair of an assignment nor an error. *)
Lemma keyword_argument_line_is_an_expression :
  looks_like_assignment (strip "round(number=7)") = true
  ∧ parse_table "round(number=7)" mode_exec
    = OK (Module [Expr (Call (Name "round") [] [Keyword (Some "number") (int_lit 7)])])
  ∧ eval_line no_arith sample_math parse_table "round(number=7)" initial_env
    = (OK (VInt 7), initial_env).
Proof. repeat split. Qed.

(** C9. After [sqrt = 5] the name [sqrt] is found in the environment, its
    value 5 is no function, and [sqrt(4)] raises instead of calling
    [math.sqrt]. *)
Lemma shadowed_function_is_not_called :
  eval_line no_arith sample_math parse_table "sqrt = 5" initial_env
  = (OK (VTuple "sqrt" (VInt 5)), <["sqrt" := VInt 5]> initial_env)
  ∧ assoc "sqrt" FUNCS = Some math_sqrt
  ∧ eval_line no_arith sample_math parse_table "sqrt(4)" (<["sqrt" := VInt 5]> initial_env)
    = (Raise (ValueError "Only approved functions are allowed"),
       <["sqrt" := VInt 5]> initial_env).
Proof. repeat split. Qed.

(** * Further properties of the evaluator and the loop *)

(** ** Stripping and lower-casing *)






Lemma is_space_lower_char c : is_space (lower_char c) = is_space c.
Proof. by destruct c as [[] [] [] [] [] [] [] []]. Qed.

Lemma lower_char_idempotent c : lower_char (lower_char c) = lower_char c.
Proof. by destruct c as [[] [] [] [] [] [] [] []]. Qed.

Lemma lower_char_colon c : Ascii.eqb (lower_char c) ":" = Ascii.eqb c ":".
Proof. by destruct c as [[] [] [] [] [] [] [] []]. Qed.

Lemma lower_idempotent s : lower (lower s) = lower s.
Proof.
  induction s as [| c s IH]; [done |].
  cbn. by rewrite lower_char_idempotent, IH.
Qed.

Lemma lower_lstrip s : lower (lstrip s) = lstrip (lower s).
Proof.
  induction s as [| c s IH]; [done |].
  cbn. rewrite is_space_lower_char. by destruct (is_space c).
Qed.

Lemma lower_rstrip s : lower (rstrip s) = rstrip (lower s).
Proof.
  induction s as [| c s IH]; [done |].
  cbn. rewrite <- IH, is_space_lower_char.
  destruct (rstrip s); cbn; [by destruct (is_space c) | done].
Qed.

Lemma lower_strip s : lower (strip s) = strip (lower s).
Proof. unfold strip. by rewrite lower_rstrip, lower_lstrip. Qed.

Lemma startswith_colon c s : startswith (String c s) [":"] = Ascii.eqb c ":".
Proof.
  unfold startswith, existsb. rewrite orb_false_r.
  destruct c as [[] [] [] [] [] [] [] []]; try reflexivity.
  by destruct s.
Qed.

Lemma startswith_colon_lower s : startswith (lower s) [":"] = startswith s [":"].
Proof.
  destruct s as [| c s]; [done |].
  change (lower (String c s)) with (String (lower_char c) (lower s)).
  by rewrite !startswith_colon, lower_char_colon.
Qed.

Lemma lower_empty s : String.eqb (lower s) "" = String.eqb s "".
Proof. by destruct s. Qed.

Section Further.
Variable arith : operator → value → value → res value.
Variable math : pyfunc → list value → res value.
Variable ast_parse : string → mode → res node.

Local Abbreviation visit := (visit arith math).
Local Abbreviation visit_args := (visit_args arith math).
Local Abbreviation visit_keywords := (visit_keywords arith math).
Local Abbreviation generic_visit := (generic_visit arith math).
Local Abbreviation eval_line := (eval_line arith math ast_parse).
Local Abbreviation repl_step := (repl_step arith math ast_parse).
Local Abbreviation repl_loop := (repl_loop arith math ast_parse).
Local Abbreviation env_after := (env_after arith math ast_parse).

(** ** [eval_line]: whitespace and parser errors *)


(** X2. [eval_line] never lets a [SyntaxError] out: the parser's becomes
    [ValueError("Syntax error: ...")].  Whatever the parser raises, the
    evaluator is not run and the environment is untouched. *)
Theorem eval_line_never_raises_SyntaxError :
  (∀ s env msg, (eval_line s env).1 ≠ Raise (SyntaxError msg))
  ∧ (∀ s env e,
       ast_parse (strip s) (line_mode s) = Raise e →
       (eval_line s env).2 = env
       ∧ (eval_line s env).1
         = Raise (match e with
                  | SyntaxError msg => ValueError ("Syntax error: " ++ msg)
                  | _ => e
                  end)).
Proof.
  split.
  - intros s env msg. rewrite (eval_line_eq arith math ast_parse).
    unfold except_SyntaxError.
    match goal with |- context [match ?m env with _ => _ end] =>
      destruct (m env) as [[v | []] env'] end; done.
  - intros s env e H. rewrite (eval_line_eq arith math ast_parse).
    unfold line_mode in H.
    destruct (looks_like_assignment (strip s));
      unfold except_SyntaxError, bind, lift; rewrite H; by destruct e.
Qed.

(** ** Commands *)

(** X3. A command is recognised whatever its letter case: a line that
    begins with a colon and the same line in lower case do the same. *)
Theorem commands_are_case_insensitive :
  ∀ input env,
    startswith (strip input) [":"] = true →
    repl_step (lower input) env = repl_step input env.
Proof.
  intros input env H.
  change (repl_step (lower input) env) with
    (if String.eqb (strip (lower input)) "" then Continue [] env
     else if startswith (strip (lower input)) [":"]
          then command (strip (lower (strip (lower input)))) env
          else report (eval_line (strip (lower input)) env)).
  change (repl_step input env) with
    (if String.eqb (strip input) "" then Continue [] env
     else if startswith (strip input) [":"]
          then command (strip (lower (strip input))) env
          else report (eval_line (strip input) env)).
  rewrite <- !lower_strip, lower_empty, startswith_colon_lower, H.
  by rewrite lower_idempotent.
Qed.

Lemma startswith_colon_nonempty s :
  startswith s [":"] = true → String.eqb s "" = false.
Proof. by destruct s. Qed.

Lemma repl_step_command input env :
  startswith (strip input) [":"] = true →
  repl_step input env = command (strip (lower (strip input))) env.
Proof.
  intros H.
  change (repl_step input env) with
    (if String.eqb (strip input) "" then Continue [] env
     else if startswith (strip input) [":"]
          then command (strip (lower (strip input))) env
          else report (eval_line (strip input) env)).
  by rewrite (startswith_colon_nonempty _ H), H.
Qed.

(** X4. A line that begins with a colon is never evaluated: what it does
    depends on the command word and the environment alone.  [:clear] (or
    [:c]) replaces the environment by [{"ans": 0.0}]; every other command
    that lets the loop go on leaves the environment as it is; and the only
    way a command can fail is [:vars] when [ans] is missing. *)
Theorem commands_are_not_evaluated :
  ∀ input env,
    startswith (strip input) [":"] = true →
    repl_step input env = command (strip (lower (strip input))) env
    ∧ (mem_string (strip (lower (strip input))) [":clear"; ":c"] = true →
       repl_step input env
       = Continue [Out_text "Cleared variables. ans = 0.0"] initial_env)
    ∧ (mem_string (strip (lower (strip input))) [":clear"; ":c"] = false →
       ∀ out env', repl_step input env = Continue out env' → env' = env)
    ∧ (∀ e env', repl_step input env = Uncaught e env' →
       env !! "ans" = None ∧ e = OtherError "KeyError" "'ans'").
Proof.
  intros input env H. rewrite (repl_step_command _ _ H).
  generalize (strip (lower (strip input))). intros cmd. unfold command.
  split; [done |]. split; [| split].
  - intros Hc. unfold mem_string, existsb in Hc. rewrite orb_false_r in Hc.
    by apply orb_true_iff in Hc as [->%String.eqb_eq | ->%String.eqb_eq].
  - intros Hc out env'. rewrite Hc.
    destruct (mem_string cmd [":quit"; ":q"; ":exit"]); [done |].
    destruct (mem_string cmd [":help"; ":h"]); [by intros [= _ <-] |].
    destruct (mem_string cmd [":vars"; ":v"]); [| by intros [= _ <-]].
    destruct (env !! "ans"); [by intros [= _ <-] | done].
  - intros e env'.
    destruct (mem_string cmd [":quit"; ":q"; ":exit"]); [done |].
    destruct (mem_string cmd [":help"; ":h"]); [done |].
    destruct (mem_string cmd [":vars"; ":v"]).
    + destruct (env !! "ans"); [done | by intros [= <- _]].
    + by destruct (mem_string cmd [":clear"; ":c"]).
Qed.

(** ** [:vars] *)

#[local] Instance string_leb_total : Total (λ a b : string, Is_true (String.leb a b)).
Proof.
  intros a b. destruct (String.leb_total a b) as [H | H]; rewrite H; [by left | by right].
Qed.




(** ** Nothing is ever deleted *)

Lemma preserves_keeps_keys {A} (m : M A) : preserves m → keeps_keys m.
Proof. intros H env k Hk. by rewrite H. Qed.

Lemma keeps_keys_bind {A B} (m : M A) (k : A → M B) :
  keeps_keys m → (∀ a, keeps_keys (k a)) → keeps_keys (bind m k).
Proof.
  intros Hm Hk env x Hx. unfold bind. specialize (Hm env x Hx).
  destruct (m env) as [[a | e] env']; cbn in *; [by apply Hk | done].
Qed.

Lemma keeps_keys_env_set id v : keeps_keys (env_set id v).
Proof.
  intros env k Hk. cbn. apply lookup_insert_is_Some.
  destruct (decide (id = k)); [by left | by right].
Qed.

Lemma visit_args_keeps_keys l :
  Forall (λ n, keeps_keys (visit n)) l → keeps_keys (visit_args l).
Proof.
  induction 1 as [| n l Hn _ IH]; cbn; [by apply preserves_keeps_keys |].
  apply keeps_keys_bind; [done |]. intros v.
  apply keeps_keys_bind; [done |]. intros vs. by apply preserves_keeps_keys.
Qed.

Lemma visit_keywords_keeps_keys l d :
  Forall (λ n, keeps_keys (visit n)) (map keyword_value l) →
  keeps_keys (visit_keywords l d).
Proof.
  revert d. induction l as [| [arg v] l IH]; cbn;
    [intros; by apply preserves_keeps_keys |].
  intros d [Hv Hl]%Forall_cons.
  apply keeps_keys_bind; [done |]. intros w. by apply IH.
Qed.

Lemma generic_visit_keeps_keys l :
  Forall (λ n, keeps_keys (visit n)) l → keeps_keys (generic_visit l).
Proof.
  induction 1 as [| n l Hn _ IH]; cbn; [by apply preserves_keeps_keys |].
  apply keeps_keys_bind; [done |]. by intros _.
Qed.

Lemma visit_keeps_keys n : keeps_keys (visit n).
Proof.
  induction n as [n IH] using node_children_ind.
  destruct n; cbn [children] in *;
    try (apply preserves_keeps_keys; cbn; apply preserves_raise).
  - by apply Forall_cons in IH as [Hb _].
  - destruct body as [| stmt [| ? ?]];
      try (apply preserves_keeps_keys; cbn; apply preserves_raise).
    by apply Forall_cons in IH as [Hs _].
  - by apply Forall_cons in IH as [Hb _].
  - destruct targets as [| t [| ? ?]];
      try (apply preserves_keeps_keys; cbn; apply preserves_raise).
    destruct t;
      try (apply preserves_keeps_keys; cbn; apply preserves_raise).
    apply Forall_cons in IH as [_ [Hv _]%Forall_cons].
    rewrite (visit_Assign_Name_eq arith math).
    apply keeps_keys_bind; [done |]. intros v.
    apply keeps_keys_bind; [apply keeps_keys_env_set |]. intros _.
    by apply preserves_keeps_keys.
  - apply preserves_keeps_keys, preserves_visit_Name.
  - apply Forall_cons in IH as [Hf [Ha Hk]%Forall_app].
    rewrite (visit_Call_eq arith math).
    apply keeps_keys_bind; [done |]. intros f.
    destruct (in_FUNCS_values f); [| by apply preserves_keeps_keys].
    apply keeps_keys_bind; [by apply visit_args_keeps_keys |]. intros vs.
    apply keeps_keys_bind; [by apply visit_keywords_keeps_keys |]. intros kw.
    by apply preserves_keeps_keys.
  - apply Forall_cons in IH as [Hl [Hr _]%Forall_cons].
    rewrite (visit_BinOp_eq arith math).
    apply keeps_keys_bind; [done |]. intros l.
    apply keeps_keys_bind; [done |]. intros r.
    apply preserves_keeps_keys, preserves_apply_BinOp.
  - apply Forall_cons in IH as [Ho _].
    change (keeps_keys (let! v := visit n in apply_UnaryOp op v)).
    apply keeps_keys_bind; [done |]. intros v.
    apply preserves_keeps_keys, preserves_apply_UnaryOp.
  - apply preserves_keeps_keys.
    match goal with c : constant |- _ => by destruct c end.
  - by apply preserves_keeps_keys.
  - rewrite (visit_Other_eq arith math). by apply generic_visit_keeps_keys.
Qed.

Lemma eval_line_keeps_keys s : keeps_keys (eval_line s).
Proof.
  intros env k Hk. rewrite (eval_line_eq arith math ast_parse).
  unfold except_SyntaxError.
  match goal with |- context [match ?m env with _ => _ end] =>
    assert (keeps_keys m) as Hm end.
  { destruct (looks_like_assignment (strip s));
      (apply keeps_keys_bind; [by apply preserves_keeps_keys |]);
      intros tree; apply visit_keeps_keys. }
  match goal with |- context [match ?m env with _ => _ end] =>
    specialize (Hm env k Hk); destruct (m env) as [[v | []] env'] end; done.
Qed.

(** X6. Evaluation never removes a variable: whatever tree is visited and
    whether it returns or raises, every name bound before is bound after,
    and so for [eval_line] on any line. *)
Theorem variables_are_never_deleted :
  (∀ n env k, is_Some (env !! k) → is_Some ((visit n env).2 !! k))
  ∧ (∀ s env k, is_Some (env !! k) → is_Some ((eval_line s env).2 !! k)).
Proof.
  split.
  - intros n. apply visit_keeps_keys.
  - intros s. apply eval_line_keeps_keys.
Qed.

Lemma report_keeps_ans r out env' :
  is_Some (r.2 !! "ans") → report r = Continue out env' → is_Some (env' !! "ans").
Proof.
  assert (∀ e env1, is_Some (env1 !! "ans") →
            recover e env1 = Continue out env' → is_Some (env' !! "ans")) as Hrec.
  { intros e env1 H. unfold recover.
    destruct (handled e); [by intros [= _ <-] | done]. }
  destruct r as [[v | e] env1]; intros H; unfold report; cbv beta iota;
    [| by apply Hrec].
  destruct v;
    match goal with
    | |- context [py_float ?x] =>
        destruct (py_float x) as [fl | err];
          [intros [= _ <-]; by rewrite lookup_insert_eq | by apply Hrec]
    end.
Qed.

Lemma repl_step_keeps_ans input env out env' :
  is_Some (env !! "ans") →
  repl_step input env = Continue out env' →
  is_Some (env' !! "ans").
Proof.
  intros Ha.
  change (repl_step input env) with
    (if String.eqb (strip input) "" then Continue [] env
     else if startswith (strip input) [":"]
          then command (strip (lower (strip input))) env
          else report (eval_line (strip input) env)).
  destruct (String.eqb (strip input) ""); [by intros [= _ <-] |].
  destruct (startswith (strip input) [":"]).
  - unfold command.
    destruct (mem_string _ [":quit"; ":q"; ":exit"]); [done |].
    destruct (mem_string _ [":help"; ":h"]); [by intros [= _ <-] |].
    destruct (mem_string _ [":vars"; ":v"]).
    + destruct Ha as [a Ha]. rewrite Ha. intros [= _ <-]. by eexists.
    + destruct (mem_string _ [":clear"; ":c"]); [| by intros [= _ <-]].
      intros [= _ <-]. by eexists.
  - apply report_keeps_ans. by apply eval_line_keeps_keys.
Qed.

(** X7. [ans] stays bound for as long as the loop runs: after any number
    of lines read from the start, the environment has [ans], so [:vars]
    prints it and never fails with a [KeyError]. *)
Theorem ans_is_always_bound :
  ∀ inputs env',
    env_after inputs initial_env = Some env' →
    is_Some (env' !! "ans")
    ∧ ∃ out, repl_step ":vars" env' = Continue out env'.
Proof.
  intros inputs env' H.
  assert (is_Some (env' !! "ans")) as Ha.
  { assert (is_Some (initial_env !! "ans")) as H0 by (by eexists).
    revert H H0. generalize initial_env.
    induction inputs as [| input rest IH]; intros env H H0; cbn in H.
    - by injection H as <-.
    - destruct (repl_step input env) as [out env1 | |] eqn:E; try done.
      apply (IH env1 H). by eapply repl_step_keeps_ans. }
  split; [done |]. destruct Ha as [a Ha].
  rewrite (repl_step_command ":vars" env') by done.
  change (command (strip (lower (strip ":vars"))) env') with
    (match env' !! "ans" with
     | Some a =>
         Continue
           (match sorted_keys env' with
            | [] => [Out_text "(no variables set)"]
            | _ => omap (λ k, Out_binding k <$> env' !! k) (sorted_keys env')
            end ++ [Out_binding "ans" a])%list env'
     | None => Uncaught (OtherError "KeyError" "'ans'") env'
     end).
  rewrite Ha. by eexists.
Qed.

(** ** What the loop does with a result *)

Lemma py_float_error_is_unhandled v e : py_float v = Raise e → handled e = None.
Proof.
  destruct v; cbn -[float_of_Z is_infinity]; try by intros [= <-].
  destruct (is_infinity (float_of_Z z)); by intros [= <-].
Qed.

(** X8. When the loop goes on after a line that is not blank and no
    command, then either [eval_line] raised [ZeroDivisionError],
    [NameError] or [ValueError], the message was printed and [ans] was not
    touched, or it returned a number or the pair of an assignment, that was
    printed, and [ans] is now the float of that number. *)
Theorem a_result_becomes_ans :
  ∀ input env out env',
    String.eqb (strip input) "" = false →
    startswith (strip input) [":"] = false →
    repl_step input env = Continue out env' →
    match eval_line (strip input) env with
    | (Raise e, env1) =>
        ∃ msg, handled e = Some msg ∧ out = [Out_error msg] ∧ env' = env1
    | (OK (VTuple name v), env1) =>
        ∃ f, py_float v = OK f ∧ out = [Out_binding name v]
             ∧ env' = <["ans" := VFloat f]> env1
    | (OK v, env1) =>
        ∃ f, py_float v = OK f ∧ out = [Out_value v]
             ∧ env' = <["ans" := VFloat f]> env1
    end.
Proof.
  intros input env out env' H1 H2.
  rewrite (repl_step_line arith math ast_parse) by done.
  assert (∀ e env1, recover e env1 = Continue out env' →
            ∃ msg, handled e = Some msg ∧ out = [Out_error msg] ∧ env' = env1)
    as Hrec.
  { intros e env1. unfold recover.
    destruct (handled e) as [msg |]; [| done]. intros [= <- <-]. by exists msg. }
  destruct (eval_line (strip input) env) as [[v | e] env1];
    unfold report; cbv beta iota; [| by apply Hrec].
  destruct v;
    match goal with
    | |- context [py_float ?x] =>
        destruct (py_float x) as [fl | err] eqn:E;
          [intros [= <- <-]; by exists fl
          | unfold recover; by rewrite (py_float_error_is_unhandled _ _ E)]
    end.
Qed.

Lemma generic_visit_None l env v env' :
  generic_visit l env = (OK v, env') → v = VNone.
Proof.
  revert env. induction l as [| n l IH]; intros env; cbn.
  - by intros [= <- _].
  - unfold bind. destruct (visit n env) as [[w | e] env1]; [apply IH | done].
Qed.

(** X9. A node of a class without a method never yields a number: when
    visiting it returns, it returns [None]; and a line that consists of
    such a node never gets a result printed by the loop, which either
    prints an error or is left with an exception. *)
Theorem unhandled_node_yields_no_number :
  ∀ cls children env,
    (∀ v env', visit (Other cls children) env = (OK v, env') → v = VNone)
    ∧ (∀ out env',
         report (visit (Expression (Other cls children)) env) = Continue out env' →
         ∃ msg, out = [Out_error msg]).
Proof.
  intros cls children env. split.
  - intros v env'. rewrite (visit_Other_eq arith math). apply generic_visit_None.
  - intros out env'.
    change (visit (Expression (Other cls children))) with (generic_visit children).
    destruct (generic_visit children env) as [[v | e] env1] eqn:E.
    + apply generic_visit_None in E as ->. done.
    + cbn. unfold recover. destruct (handled e); [| done].
      intros [= <- _]. by eexists.
Qed.

(** ** Assignment *)

(** X10. After an assignment has succeeded, the name evaluates to the
    value that was assigned; when the right-hand side contains no statement,
    the environment is the old one with that single binding added or
    replaced, so a second assignment to the name leaves no trace of the
    first. *)
Theorem assignment_then_lookup :
  (∀ id value env r env',
      visit (Module [Assign [Name id] value]) env = (OK r, env') →
      ∃ v, r = VTuple id v
           ∧ visit (Name id) env' = (OK v, env')
           ∧ (has_Assign value = false → env' = <[id := v]> env))
  ∧ (∀ id e1 e2 env r1 env1 r2 env2,
       has_Assign e1 = false →
       has_Assign e2 = false →
       visit (Module [Assign [Name id] e1]) env = (OK r1, env1) →
       visit (Module [Assign [Name id] e2]) env1 = (OK r2, env2) →
       ∃ v2, r2 = VTuple id v2 ∧ env2 = <[id := v2]> env).
Proof.
  assert (∀ id value env r env',
            visit (Module [Assign [Name id] value]) env = (OK r, env') →
            ∃ v, r = VTuple id v
                 ∧ visit (Name id) env' = (OK v, env')
                 ∧ (has_Assign value = false → env' = <[id := v]> env)) as H1.
  { intros id value env r env'.
    change (visit (Module [Assign [Name id] value]))
      with (visit (Assign [Name id] value)).
    rewrite (visit_Assign_Name_eq arith math). unfold bind.
    pose proof (no_Assign_preserves arith math value) as Hp.
    destruct (visit value env) as [[v | e] env0] eqn:E; [| done].
    cbn. intros [= <- <-]. exists v. split; [done |]. split.
    - cbn. unfold visit_Name. by rewrite lookup_insert_eq.
    - intros Hv. specialize (Hp Hv env). rewrite E in Hp. cbn in Hp. by subst. }
  split; [exact H1 |].
  intros id e1 e2 env r1 env1 r2 env2 Ha1 Ha2 E1 E2.
  destruct (H1 _ _ _ _ _ E1) as (v1 & _ & _ & Hs1).
  destruct (H1 _ _ _ _ _ E2) as (v2 & -> & _ & Hs2).
  exists v2. split; [done |].
  rewrite (Hs2 Ha2), (Hs1 Ha1). apply insert_insert_eq.
Qed.

(** X11. Only an assignment statement writes to the environment: a tree
    without one leaves it as it was, whether it returns or raises; and an
    assignment whose right-hand side raises stores nothing. *)
Theorem only_assignments_write :
  (∀ n env, has_Assign n = false → (visit n env).2 = env)
  ∧ (∀ id value env e env',
       has_Assign value = false →
       visit (Module [Assign [Name id] value]) env = (Raise e, env') →
       env' = env).
Proof.
  split.
  - intros n env H. by apply (no_Assign_preserves arith math).
  - intros id value env e env' H. by apply failed_assignment_stores_nothing.
Qed.

(** ** Operators *)

(** X12. The operands of a binary operation are evaluated from left to
    right before the operator is looked at: an exception from the left
    operand wins over one from the right, and both win over the rejection
    of the operator.  With both operands evaluated, an operator outside the
    seven of [BIN_OPS] raises [ValueError] naming its class; likewise a
    unary operator other than [+] and [-]. *)
Theorem operator_is_checked_after_the_operands :
  (∀ lhs op rhs env e env1,
      visit lhs env = (Raise e, env1) →
      visit (BinOp lhs op rhs) env = (Raise e, env1))
  ∧ (∀ lhs op rhs env vl env1 e env2,
       visit lhs env = (OK vl, env1) →
       visit rhs env1 = (Raise e, env2) →
       visit (BinOp lhs op rhs) env = (Raise e, env2))
  ∧ (∀ lhs op rhs env vl env1 vr env2,
       visit lhs env = (OK vl, env1) →
       visit rhs env1 = (OK vr, env2) →
       op ∈ [MatMult; LShift; RShift; BitOr; BitXor; BitAnd] →
       visit (BinOp lhs op rhs) env
       = (Raise (ValueError ("Operator not allowed: " ++ class_name_operator op)), env2))
  ∧ (∀ op operand env e env1,
       visit operand env = (Raise e, env1) →
       visit (UnaryOp op operand) env = (Raise e, env1))
  ∧ (∀ op operand env v env1,
       visit operand env = (OK v, env1) →
       op ∈ [Invert; Not] →
       visit (UnaryOp op operand) env
       = (Raise (ValueError ("Unary operator not allowed: " ++ class_name_unaryop op)),
          env1)).
Proof.
  split; [| split; [| split; [| split]]].
  - intros lhs op rhs env e env1 H.
    rewrite (visit_BinOp_eq arith math). unfold bind. by rewrite H.
  - intros lhs op rhs env vl env1 e env2 Hl Hr.
    rewrite (visit_BinOp_eq arith math). unfold bind. by rewrite Hl, Hr.
  - intros lhs op rhs env vl env1 vr env2 Hl Hr Hop.
    rewrite (visit_BinOp_eq arith math). unfold bind. rewrite Hl, Hr.
    repeat (apply elem_of_cons in Hop as [-> | Hop]; [done |]).
    by apply elem_of_nil in Hop.
  - intros op operand env e env1 H.
    change (visit (UnaryOp op operand))
      with (let! v := visit operand in apply_UnaryOp op v).
    unfold bind. by rewrite H.
  - intros op operand env v env1 H Hop.
    change (visit (UnaryOp op operand))
      with (let! v := visit operand in apply_UnaryOp op v).
    unfold bind. rewrite H.
    repeat (apply elem_of_cons in Hop as [-> | Hop]; [done |]).
    by apply elem_of_nil in Hop.
Qed.

(** X13. On integers and booleans (which count as 1 and 0) the operators
    [+], [-], [*], [//] and [%] and [**] with an exponent that is not
    negative are exact integer arithmetic and never consult the
    floating-point side of the interpreter.  With a divisor other than 0,
    [//] rounds down and [%] takes the sign of the divisor, so that
    [(x // y) * y + x % y] is [x]. *)
Theorem integer_arithmetic_is_exact :
  ∀ lhs rhs env vl env1 vr env2 x y,
    visit lhs env = (OK vl, env1) →
    visit rhs env1 = (OK vr, env2) →
    as_int vl = Some x →
    as_int vr = Some y →
    visit (BinOp lhs Add rhs) env = (OK (VInt (x + y)), env2)
    ∧ visit (BinOp lhs Sub rhs) env = (OK (VInt (x - y)), env2)
    ∧ visit (BinOp lhs Mult rhs) env = (OK (VInt (x * y)), env2)
    ∧ ((0 ≤ y)%Z → visit (BinOp lhs Pow rhs) env = (OK (VInt (x ^ y)), env2))
    ∧ (y ≠ 0%Z →
       visit (BinOp lhs FloorDiv rhs) env = (OK (VInt (x / y)), env2)
       ∧ visit (BinOp lhs Mod rhs) env = (OK (VInt (x mod y)), env2)
       ∧ ((x / y) * y + x mod y = x)%Z
       ∧ ((0 < y)%Z → (0 ≤ x mod y < y)%Z)
       ∧ ((y < 0)%Z → (y < x mod y ≤ 0)%Z)).
Proof.
  intros lhs rhs env vl env1 vr env2 x y Hl Hr Hx Hy.
  assert (∀ op, visit (BinOp lhs op rhs) env = apply_BinOp arith op vl vr env2) as E.
  { intros op. rewrite (visit_BinOp_eq arith math). unfold bind. by rewrite Hl, Hr. }
  rewrite !E. unfold apply_BinOp. cbn [BIN_OPS guarded andb].
  unfold operator_add, operator_sub, operator_mul, operator_pow,
    operator_floordiv, operator_mod, int_op, lift. rewrite Hx, Hy.
  repeat split; try done.
  - intros Hy0. by destruct (Z.leb_spec 0 y); [| lia].
  - assert (py_eq_zero vr = false) as ->.
    { destruct vr; try done; cbn in *.
      - injection Hy as ->. by apply Z.eqb_neq.
      - destruct b; [done |]. by injection Hy as <-. }
    by destruct (Z.eqb_spec y 0).
  - assert (py_eq_zero vr = false) as ->.
    { destruct vr; try done; cbn in *.
      - injection Hy as ->. by apply Z.eqb_neq.
      - destruct b; [done |]. by injection Hy as <-. }
    by destruct (Z.eqb_spec y 0).
  - pose proof (Z.div_mod x y). lia.
  - by apply Z.mod_pos_bound.
  - by apply Z.mod_pos_bound.
  - by apply Z.mod_neg_bound.
  - by apply Z.mod_neg_bound.
Qed.

(** ** The loop *)

Lemma repl_step_quit q env :
  is_quit q = true → repl_step q env = Return [Out_text "Goodbye!"].
Proof.
  unfold is_quit. intros [H1 H2]%andb_true_iff.
  rewrite (repl_step_command _ _ H1). unfold command. by rewrite H2.
Qed.

Lemma repl_step_blank b env :
  strip b = "" → repl_step b env = Continue [] env.
Proof.
  intros H.
  change (repl_step b env) with
    (if String.eqb (strip b) "" then Continue [] env
     else if startswith (strip b) [":"]
          then command (strip (lower (strip b))) env
          else report (eval_line (strip b) env)).
  by rewrite H.
Qed.

(** X14. The loop stops reading at the first of [:quit], [:q] and
    [:exit] it gets to (in any letter case, with white space around it):
    what follows is never read.  A line of white space only is skipped
    without a trace. *)
Theorem loop_stops_at_quit_and_skips_blank_lines :
  (∀ q rest env,
      is_quit q = true →
      repl_loop (q :: rest) env = ([Out_text "Goodbye!"], Returned))
  ∧ (∀ before q rest env,
       is_quit q = true →
       repl_loop (before ++ q :: rest) env = repl_loop (before ++ [q]) env)
  ∧ (∀ before b rest env,
       strip b = "" →
       repl_loop (before ++ b :: rest) env = repl_loop (before ++ rest) env).
Proof.
  split; [| split].
  - intros q rest env H. cbn. by rewrite (repl_step_quit _ _ H).
  - intros before q rest env H. revert env.
    induction before as [| l before IH]; intros env; cbn.
    + by rewrite (repl_step_quit _ _ H).
    + destruct (repl_step l env); [by rewrite IH | done | done].
  - intros before b rest env H. revert env.
    induction before as [| l before IH]; intros env; cbn.
    + rewrite (repl_step_blank _ _ H). by destruct (repl_loop rest env).
    + destruct (repl_step l env); [by rewrite IH | done | done].
Qed.

(** ** Keyword arguments *)





End Further.

(** * The further properties at concrete inputs *)

Lemma eval_line_never_raises_SyntaxError_witness :
  (eval_line no_arith sample_math (λ _ _, Raise (SyntaxError "invalid syntax"))
     "2 +" initial_env).2 = initial_env
  ∧ (eval_line no_arith sample_math (λ _ _, Raise (SyntaxError "invalid syntax"))
       "2 +" initial_env).1
    = Raise (ValueError "Syntax error: invalid syntax").
Proof.
  destruct (eval_line_never_raises_SyntaxError no_arith sample_math
              (λ _ _, Raise (SyntaxError "invalid syntax"))) as [_ H].
  apply (H "2 +" initial_env (SyntaxError "invalid syntax")). reflexivity.
Defined.

Lemma commands_are_case_insensitive_witness :
  repl_step no_arith sample_math parse_table (lower " :Quit") initial_env
  = repl_step no_arith sample_math parse_table " :Quit" initial_env.
Proof.
  apply commands_are_case_insensitive. reflexivity.
Defined.

Lemma commands_are_not_evaluated_witness :
  repl_step no_arith sample_math parse_table " :Clear " (<["x" := VInt 5]> initial_env)
  = Continue [Out_text "Cleared variables. ans = 0.0"] initial_env
  ∧ (∀ out env',
       repl_step no_arith sample_math parse_table ":help" (<["x" := VInt 5]> initial_env)
       = Continue out env' →
       env' = <["x" := VInt 5]> initial_env).
Proof.
  split.
  - apply (commands_are_not_evaluated no_arith sample_math parse_table " :Clear ");
      reflexivity.
  - apply (commands_are_not_evaluated no_arith sample_math parse_table ":help");
      reflexivity.
Defined.


Lemma variables_are_never_deleted_witness :
  is_Some ((visit no_arith sample_math (Module [Assign [Name "x"] (int_lit 5)])
              initial_env).2 !! "ans")
  ∧ is_Some ((eval_line no_arith sample_math parse_table "if 1: y = 2; z"
                initial_env).2 !! "ans").
Proof.
  destruct (variables_are_never_deleted no_arith sample_math parse_table) as [Hv Hl].
  split; [apply Hv | apply Hl]; by eexists.
Defined.

Lemma ans_is_always_bound_witness :
  is_Some (initial_env !! "ans")
  ∧ ∃ out,
      repl_step no_arith sample_math parse_table ":vars" initial_env
      = Continue out initial_env.
Proof.
  apply (ans_is_always_bound no_arith sample_math parse_table
           ["x = 5"; ":clear"; "1 / 0"]).
  reflexivity.
Defined.

Lemma a_result_becomes_ans_witness :
  ∃ f,
    py_float (VInt 5) = OK f
    ∧ [Out_binding "x" (VInt 5)] = [Out_binding "x" (VInt 5)]
    ∧ <["ans" := VFloat 5]> (<["x" := VInt 5]> initial_env)
      = <["ans" := VFloat f]> (<["x" := VInt 5]> initial_env).
Proof.
  apply (a_result_becomes_ans no_arith sample_math parse_table "x = 5" initial_env);
    reflexivity.
Defined.

Lemma unhandled_node_yields_no_number_witness :
  VNone = VNone
  ∧ ∃ msg, [Out_error "Unknown name: zz"] = [Out_error msg].
Proof.
  split.
  - destruct (unhandled_node_yields_no_number no_arith sample_math
                "Set" [int_lit 1; int_lit 2] initial_env) as [H _].
    apply (H VNone initial_env). reflexivity.
  - destruct (unhandled_node_yields_no_number no_arith sample_math
                "Set" [Name "zz"] initial_env) as [_ H].
    apply (H [Out_error "Unknown name: zz"] initial_env). reflexivity.
Defined.

Lemma assignment_then_lookup_witness :
  (∃ v,
     VTuple "x" (VInt 5) = VTuple "x" v
     ∧ visit no_arith sample_math (Name "x") (<["x" := VInt 5]> initial_env)
       = (OK v, <["x" := VInt 5]> initial_env)
     ∧ (has_Assign (int_lit 5) = false →
        <["x" := VInt 5]> initial_env = <["x" := v]> initial_env))
  ∧ (∃ v2,
       VTuple "x" (VInt 7) = VTuple "x" v2
       ∧ <["x" := VInt 7]> (<["x" := VInt 5]> initial_env) = <["x" := v2]> initial_env).
Proof.
  destruct (assignment_then_lookup no_arith sample_math) as [H1 H2].
  split.
  - apply (H1 "x" (int_lit 5) initial_env). reflexivity.
  - apply (H2 "x" (int_lit 5) (int_lit 7) initial_env
             (VTuple "x" (VInt 5)) (<["x" := VInt 5]> initial_env));
      reflexivity.
Defined.

Lemma only_assignments_write_witness :
  (visit no_arith sample_math (BinOp (Name "ans") Add (Name "zz")) initial_env).2
  = initial_env
  ∧ initial_env = initial_env.
Proof.
  destruct (only_assignments_write no_arith sample_math) as [H1 H2].
  split.
  - apply H1. reflexivity.
  - apply (H2 "x" (Name "y") initial_env (NameError "Unknown name: y") initial_env);
      reflexivity.
Defined.

Lemma operator_is_checked_after_the_operands_witness :
  visit no_arith sample_math (BinOp (Name "zz") BitAnd (Name "yy")) initial_env
  = (Raise (NameError "Unknown name: zz"), initial_env)
  ∧ visit no_arith sample_math (BinOp (int_lit 1) BitAnd (Name "yy")) initial_env
    = (Raise (NameError "Unknown name: yy"), initial_env)
  ∧ visit no_arith sample_math (BinOp (int_lit 1) LShift (int_lit 2)) initial_env
    = (Raise (ValueError "Operator not allowed: LShift"), initial_env)
  ∧ visit no_arith sample_math (UnaryOp Not (Name "zz")) initial_env
    = (Raise (NameError "Unknown name: zz"), initial_env)
  ∧ visit no_arith sample_math (UnaryOp Invert (int_lit 1)) initial_env
    = (Raise (ValueError "Unary operator not allowed: Invert"), initial_env).
Proof.
  destruct (operator_is_checked_after_the_operands no_arith sample_math)
    as (H1 & H2 & H3 & H4 & H5).
  split; [apply H1; reflexivity |].
  split; [eapply H2; reflexivity |].
  split; [eapply (H3 _ LShift); [reflexivity | reflexivity | set_solver] |].
  split; [apply H4; reflexivity |].
  eapply (H5 Invert); [reflexivity | set_solver].
Defined.

Lemma integer_arithmetic_is_exact_witness :
  visit no_arith sample_math (BinOp (int_lit 7) FloorDiv (int_lit (-2))) initial_env
  = (OK (VInt (-4)), initial_env)
  ∧ visit no_arith sample_math (BinOp (int_lit 7) Mod (int_lit (-2))) initial_env
    = (OK (VInt (-1)), initial_env).
Proof.
  destruct (integer_arithmetic_is_exact no_arith sample_math
              (int_lit 7) (int_lit (-2)) initial_env (VInt 7) initial_env
              (VInt (-2)) initial_env 7 (-2) eq_refl eq_refl eq_refl eq_refl)
    as (_ & _ & _ & _ & H).
  destruct H as (Hdiv & Hmod & _); [discriminate |].
  split; [exact Hdiv | exact Hmod].
Defined.

Lemma loop_stops_at_quit_and_skips_blank_lines_witness :
  repl_loop no_arith sample_math parse_table [" :Q "; "x = 5"] initial_env
  = ([Out_text "Goodbye!"], Returned)
  ∧ repl_loop no_arith sample_math parse_table (["x = 5"] ++ ":exit" :: ["1 / 0"])
      initial_env
    = repl_loop no_arith sample_math parse_table (["x = 5"] ++ [":exit"]) initial_env
  ∧ repl_loop no_arith sample_math parse_table (["x = 5"] ++ "   " :: ["1 / 0"])
      initial_env
    = repl_loop no_arith sample_math parse_table (["x = 5"] ++ ["1 / 0"]) initial_env.
Proof.
  destruct (loop_stops_at_quit_and_skips_blank_lines no_arith sample_math parse_table)
    as (H1 & H2 & H3).
  split; [apply H1; reflexivity |].
  split; [apply H2; reflexivity | apply H3; reflexivity].
Defined.

